(** * OpsWorksDeploy: a shallow embedding of lib/OpsWorksDeploy.js

    The orchestrator is continuation-passing JavaScript over the AWS
    OpsWorks client.  Every method issues one request and hands
    [(err, data)] to a callback, so the embedding is direct style in a
    small monad: a computation reads and writes the orchestrator object
    ([this]) and the remote service, produces the ordered list of effects
    it performed (client requests, timers, console lines) and ends with
    what its callback receives.  The polling loop of
    [waitForDeployFinish] has no bound in the source; it gets a fuel
    argument counting timer firings.

    Left out: [deployLatest], which the source marks as unfinished (it
    calls [findLatestVersion], present only inside a comment), and the
    text of console lines, of which only the kind and the arguments are
    kept. *)

From Stdlib Require Import String List ZArith Bool Arith Lia.
From Stdlib Require Import Ascii Permutation.
Import ListNotations.
Open Scope string_scope.

(** ** JavaScript values that occur as statuses *)

Inductive value : Type :=
| Undefined
| Null
| Str (s : string).

(** [v == 'lit'] for a string literal on the right. *)
Definition loose_eq (v : value) (lit : string) : bool :=
  match v with
  | Str s => String.eqb s lit
  | Undefined | Null => false
  end.

(** [v != 'lit']. *)
Definition loose_neq (v : value) (lit : string) : bool :=
  negb (loose_eq v lit).

(** [v === null]. *)
Definition is_null {A : Type} (r : option A) : bool :=
  match r with
  | None => true
  | Some _ => false
  end.

(** Truthiness, as tested by [if (v)] and [!v]. *)
Definition truthy (v : value) : bool :=
  match v with
  | Str s => negb (String.eqb s "")
  | Undefined | Null => false
  end.

(** String conversion, as done by ['...' + v]. *)
Definition to_string (v : value) : string :=
  match v with
  | Undefined => "undefined"
  | Null => "null"
  | Str s => s
  end.

(** [Array.prototype.toString]: the elements joined by commas. *)
Definition array_to_string (xs : list string) : string :=
  String.concat "," xs.

(** ** Records of the OpsWorks API that the code reads *)

Record App : Type := mkApp {
  AppId : string;
  StackId : string;
  Type_ : string
}.

Record Layer : Type := mkLayer {
  LayerId : string;
  LayerType : string
}.

Record Instance : Type := mkInstance {
  InstanceId : string;
  InstanceStatus : string
}.

Record Deployment : Type := mkDeployment {
  DeploymentId : string;
  Status : string
}.

(** Response bodies.  [Apps], [Layers] and [Deployments] may be absent:
    the code tests [!data.Apps] and the like.  [Instances] is
    dereferenced without a test, so it is always an array here. *)
Record DescribeAppsData : Type := { Apps : option (list App) }.
Record DescribeLayersData : Type := { Layers : option (list Layer) }.
Record DescribeInstancesData : Type := { Instances : list Instance }.
Record DescribeDeploymentsData : Type :=
  { Deployments : option (list Deployment) }.
Record CreateDeploymentData : Type := { NewDeploymentId : string }.

(** What the client passes to a request's callback: a truthy [err], or
    [data]. *)
Inductive Response (A : Type) : Type :=
| Failure (err : string)
| Success (data : A).
Arguments Failure {A} err.
Arguments Success {A} data.

(** ** Errors handed to callbacks

    One constructor per [new Error(...)] of the source, plus the client's
    own error passed through unchanged. *)
Inductive Error : Type :=
| Upstream (err : string)
| AppNotFound (appId : string)
| NoLayers (stackId : string)
| LayerNotFound (layerType stackId : string)
| NoRunningInstances (layerId stackId : string)
| InconsistentResult (deploymentIds : list string)
| DeploymentFailed
| UnknownStatus (status : value).

(** The double-quote character, which the messages embed. *)
Definition dq : string := String (Ascii.ascii_of_nat 34) EmptyString.

(** The text of each error, as the source builds it. *)
Definition message (e : Error) : string :=
  match e with
  | Upstream err => err
  | AppNotFound appId =>
      "Unable to find AppId " ++ dq ++ appId ++ dq ++
      ", check if it exists and you have sufficient privileges"
  | NoLayers stackId =>
      "No OpsWorks layers found in StackId " ++ dq ++ stackId ++ dq ++ dq ++
      ", check if a layer exists and whether you have sufficient privileges"
  | LayerNotFound layerType stackId =>
      "Unable to find layer with type " ++ dq ++ layerType ++ dq ++
      " in StackId " ++ dq ++ stackId ++ dq
  | NoRunningInstances layerId stackId =>
      "No running instances found for LayerId " ++ dq ++ layerId ++ dq ++
      " in StackId " ++ dq ++ stackId ++ dq
  | InconsistentResult deploymentIds =>
      "Could not retrieve all deployment statuses for deployment ids " ++
      array_to_string deploymentIds
  | DeploymentFailed =>
      "Deployment failed, look in Amazon OpsWorks deployment logs to see why"
  | UnknownStatus status =>
      "Unknown deployment status " ++ dq ++ to_string status ++ dq
  end.

Open Scope list_scope.

(** The source has no error classes.  The errors that report a lookup
    that came up empty (application id, layers of a stack, layer type,
    running instances) are grouped as "not found". *)
Definition is_NotFound (e : Error) : bool :=
  match e with
  | AppNotFound _ | NoLayers _ | LayerNotFound _ _ | NoRunningInstances _ _ =>
      true
  | _ => false
  end.

(** ** The pure loops *)

(** The body of the [for] loop of [_determineDeploymentStatus]: the next
    value of [status] after looking at [deployments[i]]. *)
Definition _determineDeploymentStatus_body (status : value) (d : Deployment)
  : value :=
  if loose_eq status "running" || String.eqb (Status d) "running"
  then Str "running"
  else if loose_eq status "failed" || String.eqb (Status d) "failed"
  then Str "failed"
  else if loose_neq status "failed"
  then Str "successful"
  else status.

(** The loop itself.  [todo] is [max - i], the number of iterations left;
    the loop test [i < max] is [todo <> 0]. *)
Fixpoint _determineDeploymentStatus_loop
    (deployments : list Deployment) (todo i : nat) (status : value) : value :=
  match todo with
  | O => status
  | S todo' =>
      let status' :=
        match nth_error deployments i with
        | Some d => _determineDeploymentStatus_body status d
        | None => status (* not reached: i < deployments.length *)
        end in
      _determineDeploymentStatus_loop deployments todo' (S i) status'
  end.

Definition _determineDeploymentStatus (deployments : list Deployment) : value :=
  _determineDeploymentStatus_loop deployments (length deployments) 0 Null.

(** The [while] loop of [findLayerByType]; [todo] is [max - i]. *)
Fixpoint findLayerByType_loop
    (layers : list Layer) (layerType : string) (todo i : nat)
    (result : option Layer) : option Layer :=
  match todo with
  | O => result
  | S todo' =>
      if is_null result then
        let result' :=
          match nth_error layers i with
          | Some l => if String.eqb (LayerType l) layerType then Some l else result
          | None => result (* not reached: i < data.Layers.length *)
          end in
        findLayerByType_loop layers layerType todo' (S i) result'
      else result
  end.

(** The predicate passed to [data.Instances.filter]. *)
Definition is_online (element : Instance) : bool :=
  String.eqb (InstanceStatus element) "online".

(** ** The orchestrator object *)

Record AwsOptions : Type := { region : string; apiVersion : string }.

Record Options : Type := {
  options_opsworks : AwsOptions;
  options_s3 : option AwsOptions;
  options_pollingTime : option Z
}.

(** The fields of [this].  [state] is the property that
    [waitForDeployFinish] reads; an object that lacks it yields
    [Undefined].  The OpsWorks client itself is the [opsworks] variable of
    the section below. *)
Record This : Type := mkThis {
  s3 : option AwsOptions;
  deployStatus : value;
  pollingTime : Z;
  state : value
}.

(** The constructor. *)
Definition OpsWorksDeploy (options : Options) : This :=
  {| s3 := options_s3 options;
     deployStatus := Null;
     pollingTime :=
       match options_pollingTime options with
       | Some t => if Z.eqb t 0 then 10000%Z else t
       | None => 10000%Z
       end;
     state := Undefined |}.

(** ** Effects *)

Inductive LogLine : Type :=
| LogFinished
| LogFoundInstances (n : nat) (layerId stackId : string)
| LogCreated (appId stackId : string)
| LogStarted (deploymentId : string)
| LogRunning (pollingTime : Z)
| LogSuccessful
| LogUpdated (appId s3SourceUrl : string).

Inductive Event : Type :=
| DescribeApps (AppIds : list string)
| DescribeLayers (stackId : string)
| DescribeInstances (layerId : string)
| UpdateApp (appId url : string)
| CreateDeployment (commandName stackId appId : string)
| DescribeDeployments (DeploymentIds : list string)
| SetTimeout (ms : Z)
| ConsoleLog (line : LogLine).

(** The OpsWorks client as the code uses it: six requests against a
    remote service whose state has type [W]. *)
Record OpsWorks (W : Type) : Type := {
  describeApps : list string -> W -> Response DescribeAppsData * W;
  describeLayers : string -> W -> Response DescribeLayersData * W;
  describeInstances : string -> W -> Response DescribeInstancesData * W;
  client_updateApp : string -> string -> W -> option string * W;
  client_createDeployment :
    string -> string -> string -> W -> Response CreateDeploymentData * W;
  describeDeployments :
    list string -> W -> Response DescribeDeploymentsData * W
}.
Arguments describeApps {W}.
Arguments describeLayers {W}.
Arguments describeInstances {W}.
Arguments client_updateApp {W}.
Arguments client_createDeployment {W}.
Arguments describeDeployments {W}.

(** What a callback receives, or [OutOfFuel] when the polling loop was
    cut before any callback was called. *)
Inductive Res (A : Type) : Type :=
| Ok (a : A)
| Err (e : Error)
| OutOfFuel.
Arguments Ok {A} a.
Arguments Err {A} e.
Arguments OutOfFuel {A}.

Record St (W : Type) : Type := mkSt { this : This; world : W }.
Arguments mkSt {W}.
Arguments this {W}.
Arguments world {W}.

Definition M (W A : Type) : Type := St W -> Res A * St W * list Event.

Definition ret {W A} (a : A) : M W A := fun st => (Ok a, st, []).

Definition fail {W A} (e : Error) : M W A := fun st => (Err e, st, []).

Definition out_of_fuel {W A} : M W A := fun st => (OutOfFuel, st, []).

Definition bind {W A B} (m : M W A) (k : A -> M W B) : M W B :=
  fun st =>
    match m st with
    | (Ok a, st1, tr1) =>
        let '(r, st2, tr2) := k a st1 in (r, st2, tr1 ++ tr2)
    | (Err e, st1, tr1) => (Err e, st1, tr1)
    | (OutOfFuel, st1, tr1) => (OutOfFuel, st1, tr1)
    end.

Notation "x <- m ;; k" := (bind m (fun x => k))
  (at level 61, m at next level, right associativity).
Notation "m ;;; k" := (bind m (fun _ => k))
  (at level 61, right associativity).

Definition emit {W} (ev : Event) : M W unit := fun st => (Ok tt, st, [ev]).

Definition console_log {W} (line : LogLine) : M W unit := emit (ConsoleLog line).

Definition get_this {W} : M W This := fun st => (Ok (this st), st, []).

(** [self.deployStatus = status]. *)
Definition assign_deployStatus (self : This) (status : value) : This :=
  {| s3 := s3 self; deployStatus := status;
     pollingTime := pollingTime self; state := state self |}.

Definition set_deployStatus {W} (status : value) : M W unit :=
  fun st => (Ok tt, mkSt (assign_deployStatus (this st) status) (world st), []).

(** The three components of a run. *)
Definition result_of {W A} (x : Res A * St W * list Event) : Res A := fst (fst x).
Definition state_of {W A} (x : Res A * St W * list Event) : St W := snd (fst x).
Definition trace_of {W A} (x : Res A * St W * list Event) : list Event := snd x.

(** One request: the event is recorded, the service answers and moves on. *)
Definition request {W A} (ev : Event) (call : W -> A * W) : M W A :=
  fun st =>
    let '(a, w') := call (world st) in
    (Ok a, mkSt (this st) w', [ev]).

(** ** The methods of the orchestrator *)

Section Orchestrator.

Variable W : Type.
Variable opsworks : OpsWorks W.

Definition findApp (appId : string) : M W App :=
  resp <- request (DescribeApps [appId]) (describeApps opsworks [appId]) ;;
  match resp with
  | Failure err => fail (Upstream err)
  | Success data =>
      match Apps data with
      | None | Some [] => fail (AppNotFound appId)
      | Some (app :: _) => ret app
      end
  end.

Definition findLayerByType (stackId layerType : string)
  : M W (option Layer) :=
  resp <- request (DescribeLayers stackId) (describeLayers opsworks stackId) ;;
  match resp with
  | Failure err => fail (Upstream err)
  | Success data =>
      match Layers data with
      | None | Some [] => fail (NoLayers stackId)
      | Some layers =>
          let max := length layers in
          ret (findLayerByType_loop layers layerType max 0 None)
      end
  end.

Definition findRunningInstancesByLayerId (layerId : string)
  : M W (list Instance) :=
  resp <- request (DescribeInstances layerId)
                  (describeInstances opsworks layerId) ;;
  match resp with
  | Failure err => fail (Upstream err)
  | Success data => ret (filter is_online (Instances data))
  end.

Definition findRunningInstances (stackId layerType : string)
  : M W (list Instance) :=
  found <- findLayerByType stackId layerType ;;
  match found with
  | None => fail (LayerNotFound layerType stackId)
  | Some layer =>
      instances <- findRunningInstancesByLayerId (LayerId layer) ;;
      if Nat.eqb (length instances) 0
      then fail (NoRunningInstances (LayerId layer) stackId)
      else
        console_log
          (LogFoundInstances (length instances) (LayerId layer) stackId) ;;;
        ret instances
  end.

Definition updateApp (appId s3SourceUrl : string) : M W unit :=
  err <- request (UpdateApp appId s3SourceUrl)
                 (client_updateApp opsworks appId s3SourceUrl) ;;
  match err with
  | None => console_log (LogUpdated appId s3SourceUrl) ;;; ret tt
  | Some e => fail (Upstream e)
  end.

Definition createDeployment (stackId appId : string) : M W string :=
  console_log (LogCreated appId stackId) ;;;
  resp <- request (CreateDeployment "deploy" stackId appId)
                  (client_createDeployment opsworks "deploy" stackId appId) ;;
  match resp with
  | Failure err => fail (Upstream err)
  | Success data =>
      console_log (LogStarted (NewDeploymentId data)) ;;;
      ret (NewDeploymentId data)
  end.

Definition getDeploymentStatus (deploymentIds : list string) : M W value :=
  resp <- request (DescribeDeployments deploymentIds)
                  (describeDeployments opsworks deploymentIds) ;;
  match resp with
  | Failure err => fail (Upstream err)
  | Success data =>
      match Deployments data with
      | None => fail (InconsistentResult deploymentIds)
      | Some deployments =>
          if negb (Nat.eqb (length deployments) (length deploymentIds))
          then fail (InconsistentResult deploymentIds)
          else ret (_determineDeploymentStatus deployments)
      end
  end.

(** The callback that [waitForDeployFinish] passes to
    [getDeploymentStatus], on the branch with no error; [again] is the
    call [this.waitForDeployFinish(deploymentIds, callback)]. *)
Definition waitForDeployFinish_callback
    (again : M W value) (status : value) : M W value :=
  set_deployStatus status ;;;
  if loose_eq status "running" then
    self <- get_this ;;
    console_log (LogRunning (pollingTime self)) ;;;
    again
  else if loose_eq status "failed" then
    fail DeploymentFailed
  else if loose_eq status "successful" then
    console_log LogSuccessful ;;;
    ret status
  else
    fail (UnknownStatus status).

(** [fuel] bounds the number of timers set. *)
Fixpoint waitForDeployFinish (fuel : nat) (deploymentIds : list string)
  : M W value :=
  match fuel with
  | O => out_of_fuel
  | S fuel' =>
      self <- get_this ;;
      emit (SetTimeout (pollingTime self)) ;;;
      self <- get_this ;;
      if loose_eq (state self) "successfull" || loose_eq (state self) "failed"
      then ret (state self)
      else
        status <- getDeploymentStatus deploymentIds ;;
        waitForDeployFinish_callback
          (waitForDeployFinish fuel' deploymentIds) status
  end.

(** The tasks of the [async.waterfall] of [deploy]. *)
Definition doFindApp (appId : string) : M W App := findApp appId.

Definition doFindRunningInstances (app : App) : M W (App * list Instance) :=
  instances <- findRunningInstances (StackId app) (Type_ app ++ "-app")%string ;;
  ret (app, instances).

Definition doUpdateApp (s3SourceUrl : value) (app : App)
    (instances : list Instance) : M W (App * list Instance) :=
  if truthy s3SourceUrl then
    updateApp (AppId app) (to_string s3SourceUrl) ;;;
    ret (app, instances)
  else ret (app, instances).

Definition doCreateDeployment (app : App) (instances : list Instance)
  : M W string :=
  createDeployment (StackId app) (AppId app).

Definition doWaitForDeployFinish (fuel : nat) (deploymentId : string)
  : M W value :=
  waitForDeployFinish fuel [deploymentId].

Definition waterfall (fuel : nat) (appId : string) (s3SourceUrl : value)
  : M W value :=
  app <- doFindApp appId ;;
  ai <- doFindRunningInstances app ;;
  ai' <- doUpdateApp s3SourceUrl (fst ai) (snd ai) ;;
  deploymentId <- doCreateDeployment (fst ai') (snd ai') ;;
  doWaitForDeployFinish fuel deploymentId.

(** [deploy(appId, s3SourceUrl, callback)].  The two-argument call
    [deploy(appId, callback)] is the one with [s3SourceUrl = Null]: the
    source sets it so.  The final callback of the waterfall prints the
    duration (a reading of the clock, left out of [LogFinished]) and
    passes [(err, status)] on. *)
Definition deploy (fuel : nat) (appId : string) (s3SourceUrl : value)
  : M W value :=
  fun st =>
    match waterfall fuel appId s3SourceUrl st with
    | (OutOfFuel, st', tr) => (OutOfFuel, st', tr)
    | (r, st', tr) => (r, st', tr ++ [ConsoleLog LogFinished])
    end.

End Orchestrator.

Arguments findApp {W}.
Arguments findLayerByType {W}.
Arguments findRunningInstancesByLayerId {W}.
Arguments findRunningInstances {W}.
Arguments updateApp {W}.
Arguments createDeployment {W}.
Arguments getDeploymentStatus {W}.
Arguments waitForDeployFinish_callback {W}.
Arguments waitForDeployFinish {W}.
Arguments doFindApp {W}.
Arguments doFindRunningInstances {W}.
Arguments doUpdateApp {W}.
Arguments doCreateDeployment {W}.
Arguments doWaitForDeployFinish {W}.
Arguments waterfall {W}.
Arguments deploy {W}.

(** ** Vocabulary for the statements *)

(** The test at the head of the timer callback of [waitForDeployFinish]. *)
Definition short_circuits (self : This) : bool :=
  loose_eq (state self) "successfull" || loose_eq (state self) "failed".

(** Two snapshots of the object that differ at most in [deployStatus]. *)
Definition same_config (a b : This) : Prop :=
  s3 a = s3 b /\ pollingTime a = pollingTime b /\ state a = state b.

(** A computation that assigns no field of [this] but [deployStatus]. *)
Definition keeps_config {W A} (m : M W A) : Prop :=
  forall st, same_config (this st) (this (state_of (m st))).

(** A computation all of whose effects satisfy [allowed]. *)
Definition emits_only {W A} (allowed : Event -> bool) (m : M W A) : Prop :=
  forall st, forallb allowed (trace_of (m st)) = true.

(** The requests that change the remote service. *)
Definition is_mutation (ev : Event) : bool :=
  match ev with
  | UpdateApp _ _ | CreateDeployment _ _ _ => true
  | _ => false
  end.

(** The effects of polling: timers and status fetches. *)
Definition is_poll (ev : Event) : bool :=
  match ev with
  | SetTimeout _ | DescribeDeployments _ => true
  | _ => false
  end.

Definition is_console (ev : Event) : bool :=
  match ev with
  | ConsoleLog _ => true
  | _ => false
  end.

(** The read-only lookups, and console lines. *)
Definition is_lookup (ev : Event) : bool :=
  match ev with
  | DescribeApps _ | DescribeLayers _ | DescribeInstances _ | ConsoleLog _ => true
  | _ => false
  end.

(** One round of polling: wait [ms], then fetch the status of [ids]. *)
Definition poll_round (ms : Z) (ids : list string) : list Event :=
  [SetTimeout ms; DescribeDeployments ids].

(** Effects of the two requests that change the service, and console
    lines. *)
Definition is_mutation_or_console (ev : Event) : bool :=
  is_mutation ev || is_console ev.

(** Effects of polling, and console lines. *)
Definition is_poll_or_console (ev : Event) : bool :=
  is_poll ev || is_console ev.

Definition not_poll (ev : Event) : bool := negb (is_poll ev).

(** A computation whose timers and status fetches come in whole rounds,
    all with the polling interval of the object, provided that the
    object does not make [waitForDeployFinish] return early. *)
Definition polls_in_rounds {W A} (m : M W A) : Prop :=
  forall st,
    short_circuits (this st) = false ->
    exists k ids,
      filter is_poll (trace_of (m st))
      = concat (repeat (poll_round (pollingTime (this st)) ids) k).

(** ** Order-preserving selection

    [xs] is [ys] with some entries dropped; this is how the result of
    [Array.prototype.filter] relates to the array. *)
Inductive sublist {A : Type} : list A -> list A -> Prop :=
| sublist_nil : sublist [] []
| sublist_keep : forall x xs ys, sublist xs ys -> sublist (x :: xs) (x :: ys)
| sublist_drop : forall x xs ys, sublist xs ys -> sublist xs (x :: ys).

(** ** A scripted service

    A stand-in for the remote service, used to run the orchestrator on
    concrete inputs: every request has a canned answer, and
    [describeDeployments] answers from a script, one entry per call. *)
Module Stub.

Record World : Type := mkWorld {
  apps : Response DescribeAppsData;
  layers : Response DescribeLayersData;
  instances : Response DescribeInstancesData;
  update : option string;
  create : Response CreateDeploymentData;
  script : list (Response DescribeDeploymentsData)
}.

Definition next_deployments (w : World)
  : Response DescribeDeploymentsData * World :=
  match script w with
  | [] => (Failure "script exhausted", w)
  | r :: rest =>
      (r, mkWorld (apps w) (layers w) (instances w) (update w) (create w) rest)
  end.

Definition client : OpsWorks World :=
  {| describeApps := fun _ w => (apps w, w);
     describeLayers := fun _ w => (layers w, w);
     describeInstances := fun _ w => (instances w, w);
     client_updateApp := fun _ _ w => (update w, w);
     client_createDeployment := fun _ _ _ w => (create w, w);
     describeDeployments := fun _ w => next_deployments w |}.

Definition options : Options :=
  {| options_opsworks := {| region := "us-east-1"; apiVersion := "2013-02-18" |};
     options_s3 := Some {| region := "eu-west-1"; apiVersion := "2006-03-01" |};
     options_pollingTime := None |}.

Definition rails : App :=
  {| AppId := "app-1"; StackId := "stack-1"; Type_ := "rails" |}.

Definition statuses (ss : list string) : Response DescribeDeploymentsData :=
  Success {| Deployments := Some (map (mkDeployment "d-1") ss) |}.

(** One application of type rails, a rails-app layer after a db layer,
    one online instance out of two, and a deployment that is seen
    running twice before it succeeds. *)
Definition healthy : World :=
  {| apps := Success {| Apps := Some [rails] |};
     layers := Success {| Layers := Some [mkLayer "layer-db" "db-master";
                                          mkLayer "layer-1" "rails-app";
                                          mkLayer "layer-2" "rails-app"] |};
     instances := Success {| Instances := [mkInstance "i-1" "stopped";
                                           mkInstance "i-2" "online"] |};
     update := None;
     create := Success {| NewDeploymentId := "d-1" |};
     script := [statuses ["running"]; statuses ["running"];
                statuses ["successful"]] |}.

(** A service that answers a request for one deployment with two
    records. *)
Definition surplus : World :=
  {| apps := apps healthy; layers := layers healthy;
     instances := instances healthy; update := None;
     create := create healthy;
     script := [statuses ["successful"; "successful"]] |}.

(** The deployment has already succeeded at the first poll. *)
Definition finished : World :=
  {| apps := apps healthy; layers := layers healthy;
     instances := instances healthy; update := None;
     create := create healthy;
     script := [statuses ["successful"]] |}.

(** The service knows no deployment: it answers with no records. *)
Definition idle : World :=
  {| apps := apps healthy; layers := layers healthy;
     instances := instances healthy; update := None;
     create := create healthy;
     script := [statuses []] |}.

(** Scenario A of the specification: the stack of the rails
    application has no rails-app layer. *)
Definition no_layer : World :=
  {| apps := apps healthy;
     layers := Success {| Layers := Some [mkLayer "layer-db" "db-master"] |};
     instances := instances healthy; update := None;
     create := create healthy;
     script := script healthy |}.

Definition start (w : World) : St World :=
  mkSt (OpsWorksDeploy options) w.

End Stub.

(** ** The command line (deploy.js)

    The script reads its options, puts the version into the url, makes
    an orchestrator with fixed connection options, runs [deploy] and
    exits with 0 or 1.  Option values are strings here, or absent. *)






(** The connection options that deploy.js hard-codes. *)
Definition opsWorksOptions : Options :=
  {| options_opsworks := {| region := "us-east-1"; apiVersion := "2013-02-18" |};
     options_s3 := Some {| region := "eu-west-1"; apiVersion := "2006-03-01" |};
     options_pollingTime := None |}.




(** ** More scripted services *)

(** The application lookup is refused. *)
Definition denied : Stub.World :=
  Stub.mkWorld (Failure "AccessDenied") (Stub.layers Stub.healthy)
    (Stub.instances Stub.healthy) None (Stub.create Stub.healthy) [].

(** The only instance of the rails-app layer is stopped. *)
Definition all_stopped : Stub.World :=
  Stub.mkWorld (Stub.apps Stub.healthy) (Stub.layers Stub.healthy)
    (Success {| Instances := [mkInstance "i-1" "stopped"] |}) None
    (Stub.create Stub.healthy) (Stub.script Stub.healthy).

(** The request to create the deployment is throttled. *)
Definition throttled : Stub.World :=
  Stub.mkWorld (Stub.apps Stub.healthy) (Stub.layers Stub.healthy)
    (Stub.instances Stub.healthy) None (Failure "Throttling")
    (Stub.script Stub.healthy).

(** A service whose status fetch fails once the deployment has been
    seen running twice. *)
Definition flaky : Stub.World :=
  Stub.mkWorld (Stub.apps Stub.healthy) (Stub.layers Stub.healthy)
    (Stub.instances Stub.healthy) None (Stub.create Stub.healthy)
    [Stub.statuses ["running"]; Stub.statuses ["running"];
     Failure "ServiceUnavailable"].

(** ** More vocabulary *)

(** The aggregate of two aggregates. *)
Definition join_status (a b : value) : value :=
  if loose_eq a "running" || loose_eq b "running" then Str "running"
  else if loose_eq a "failed" || loose_eq b "failed" then Str "failed"
  else match a, b with
       | Null, Null => Null
       | _, _ => Str "successful"
       end.

(** The effects other than console lines. *)
Definition requests (tr : list Event) : list Event :=
  filter (fun ev => negb (is_console ev)) tr.

Definition prefix_of {A : Type} (xs ys : list A) : Prop :=
  exists rest, ys = xs ++ rest.

(** The effects of one invocation of [waitForDeployFinish] that sees
    the deployments running. *)
Definition running_round (ms : Z) (ids : list string) : list Event :=
  [SetTimeout ms; DescribeDeployments ids; ConsoleLog (LogRunning ms)].

(** [running_rounds opsworks ids n st st']: from [st], [n] status
    fetches in a row yield running, each stored in [deployStatus], and
    leave the orchestrator and the service in [st']. *)
Inductive running_rounds {W} (opsworks : OpsWorks W) (ids : list string)
  : nat -> St W -> St W -> Prop :=
| running_rounds_O : forall st, running_rounds opsworks ids 0 st st
| running_rounds_S : forall n st st1 tr1 st',
    getDeploymentStatus opsworks ids st = (Ok (Str "running"), st1, tr1) ->
    running_rounds opsworks ids n
      (mkSt (assign_deployStatus (this st1) (Str "running")) (world st1)) st' ->
    running_rounds opsworks ids (S n) st st'.

(** A service on which every deployment asked about is running, for
    ever; its state counts the status fetches. *)
Module Busy.

Definition client : OpsWorks nat :=
  {| describeApps := fun _ n => (Stub.apps Stub.healthy, n);
     describeLayers := fun _ n => (Stub.layers Stub.healthy, n);
     describeInstances := fun _ n => (Stub.instances Stub.healthy, n);
     client_updateApp := fun _ _ n => (None, n);
     client_createDeployment := fun _ _ _ n => (Stub.create Stub.healthy, n);
     describeDeployments := fun ids n =>
       (Success {| Deployments :=
                     Some (map (fun id => mkDeployment id "running") ids) |},
        S n) |}.

End Busy.

(** Scenario B of the specification, run on the stub. *)
Example deploy_healthy :
  deploy Stub.client 5 "app-1" Null (Stub.start Stub.healthy) =
  (Ok (Str "successful"),
   mkSt (mkThis (options_s3 Stub.options) (Str "successful") 10000 Undefined)
        (Stub.mkWorld (Stub.apps Stub.healthy) (Stub.layers Stub.healthy)
           (Stub.instances Stub.healthy) None (Stub.create Stub.healthy) []),
   [DescribeApps ["app-1"]; DescribeLayers "stack-1";
    DescribeInstances "layer-1";
    ConsoleLog (LogFoundInstances 1 "layer-1" "stack-1");
    ConsoleLog (LogCreated "app-1" "stack-1");
    CreateDeployment "deploy" "stack-1" "app-1";
    ConsoleLog (LogStarted "d-1");
    SetTimeout 10000; DescribeDeployments ["d-1"];
    ConsoleLog (LogRunning 10000);
    SetTimeout 10000; DescribeDeployments ["d-1"];
    ConsoleLog (LogRunning 10000);
    SetTimeout 10000; DescribeDeployments ["d-1"];
    ConsoleLog LogSuccessful;
    ConsoleLog LogFinished]).
Proof. vm_compute. reflexivity. Qed.

(** * Properties *)

(** ** The aggregate status *)

Definition is_running (d : Deployment) : bool := String.eqb (Status d) "running".
Definition is_failed (d : Deployment) : bool := String.eqb (Status d) "failed".

(** The index loop visits the deployments in order: it is a left fold of
    the loop body. *)
Lemma _determineDeploymentStatus_loop_fold :
  forall rest pre status,
    _determineDeploymentStatus_loop (pre ++ rest) (length rest) (length pre) status
    = fold_left _determineDeploymentStatus_body rest status.
Proof.
  induction rest as [| d rest IH]; intros pre status; simpl.
  - reflexivity.
  - rewrite nth_error_app2 by lia.
    rewrite Nat.sub_diag. simpl.
    specialize (IH (pre ++ [d]) (_determineDeploymentStatus_body status d)).
    rewrite <- app_assoc in IH. simpl in IH.
    rewrite length_app in IH. simpl in IH.
    rewrite Nat.add_1_r in IH. exact IH.
Qed.

Lemma _determineDeploymentStatus_fold :
  forall ds,
    _determineDeploymentStatus ds
    = fold_left _determineDeploymentStatus_body ds Null.
Proof.
  intros ds. unfold _determineDeploymentStatus.
  exact (_determineDeploymentStatus_loop_fold ds [] Null).
Qed.

(** Once the running status is reached it is kept. *)
Lemma fold_body_running :
  forall ds, fold_left _determineDeploymentStatus_body ds (Str "running")
             = Str "running".
Proof.
  induction ds as [| d ds IH]; simpl; [reflexivity | exact IH].
Qed.

(** From failed, the fold ends running or failed. *)
Lemma fold_body_failed :
  forall ds,
    fold_left _determineDeploymentStatus_body ds (Str "failed")
    = if existsb is_running ds then Str "running" else Str "failed".
Proof.
  induction ds as [| d ds IH]; simpl; [reflexivity |].
  unfold _determineDeploymentStatus_body at 2. unfold is_running at 1. simpl.
  destruct (String.eqb (Status d) "running"); simpl.
  - apply fold_body_running.
  - exact IH.
Qed.

(** From successful, the three-way precedence. *)
Lemma fold_body_successful :
  forall ds,
    fold_left _determineDeploymentStatus_body ds (Str "successful")
    = if existsb is_running ds then Str "running"
      else if existsb is_failed ds then Str "failed"
      else Str "successful".
Proof.
  induction ds as [| d ds IH]; simpl; [reflexivity |].
  unfold _determineDeploymentStatus_body at 2.
  unfold is_running at 1, is_failed at 1. simpl.
  destruct (String.eqb (Status d) "running"); simpl.
  - apply fold_body_running.
  - destruct (String.eqb (Status d) "failed"); simpl.
    + rewrite fold_body_failed. destruct (existsb is_running ds); reflexivity.
    + exact IH.
Qed.

(** The precedence rule for any non-empty list, whatever the statuses. *)
Lemma _determineDeploymentStatus_precedence :
  forall d ds,
    _determineDeploymentStatus (d :: ds)
    = if existsb is_running (d :: ds) then Str "running"
      else if existsb is_failed (d :: ds) then Str "failed"
      else Str "successful".
Proof.
  intros d ds. rewrite _determineDeploymentStatus_fold. simpl.
  unfold _determineDeploymentStatus_body at 2.
  unfold is_running at 1, is_failed at 1. simpl.
  destruct (String.eqb (Status d) "running"); simpl.
  - apply fold_body_running.
  - destruct (String.eqb (Status d) "failed"); simpl.
    + rewrite fold_body_failed. destruct (existsb is_running ds); reflexivity.
    + apply fold_body_successful.
Qed.

(** The statuses the code recognises. *)
Definition recognised (s : string) : Prop :=
  s = "running" \/ s = "failed" \/ s = "successful".

(** C1.  For every non-empty list of deployments whose statuses are
    running, failed or successful: if some member is running the
    aggregate is running, whatever the others are; otherwise, if some
    member is failed the aggregate is failed; otherwise it is
    successful. *)
Theorem determineDeploymentStatus_precedence_rule :
  forall ds : list Deployment,
    ds <> [] ->
    Forall (fun d => recognised (Status d)) ds ->
    ((exists d, In d ds /\ Status d = "running") ->
       _determineDeploymentStatus ds = Str "running")
    /\ ((forall d, In d ds -> Status d <> "running") ->
        (exists d, In d ds /\ Status d = "failed") ->
          _determineDeploymentStatus ds = Str "failed")
    /\ ((forall d, In d ds -> Status d <> "running") ->
        (forall d, In d ds -> Status d <> "failed") ->
          _determineDeploymentStatus ds = Str "successful").
Proof.
  intros ds Hne _. destruct ds as [| d0 ds]; [congruence |].
  rewrite _determineDeploymentStatus_precedence.
  assert (Hrun : forall l, (exists d, In d l /\ Status d = "running")
                           <-> existsb is_running l = true).
  { intros l. rewrite existsb_exists. unfold is_running.
    split; intros [d [Hin Hd]]; exists d; split; auto;
      now apply String.eqb_eq. }
  assert (Hfail : forall l, (exists d, In d l /\ Status d = "failed")
                            <-> existsb is_failed l = true).
  { intros l. rewrite existsb_exists. unfold is_failed.
    split; intros [d [Hin Hd]]; exists d; split; auto;
      now apply String.eqb_eq. }
  assert (Hnorun : (forall d, In d (d0 :: ds) -> Status d <> "running") ->
                   existsb is_running (d0 :: ds) = false).
  { intros H. destruct (existsb is_running (d0 :: ds)) eqn:E; [| reflexivity].
    apply Hrun in E. destruct E as [d [Hin Hd]]. now apply H in Hin. }
  repeat split.
  - intros H. apply Hrun in H. now rewrite H.
  - intros Hn Hf. rewrite (Hnorun Hn). apply Hfail in Hf. now rewrite Hf.
  - intros Hn Hf. rewrite (Hnorun Hn).
    destruct (existsb is_failed (d0 :: ds)) eqn:E; [| reflexivity].
    apply Hfail in E. destruct E as [d [Hin Hd]]. now apply Hf in Hin.
Qed.

(** ** Looking up the layer *)

Definition has_type (layerType : string) (l : Layer) : bool :=
  String.eqb (LayerType l) layerType.

(** The [while] loop stops at the first layer of the wanted type. *)
Lemma findLayerByType_loop_find :
  forall layerType rest pre result,
    findLayerByType_loop (pre ++ rest) layerType (length rest) (length pre) result
    = match result with
      | Some r => Some r
      | None => find (has_type layerType) rest
      end.
Proof.
  induction rest as [| l rest IH]; intros pre result; simpl.
  - destruct result; reflexivity.
  - destruct result as [r |]; simpl; [reflexivity |].
    rewrite nth_error_app2 by lia. rewrite Nat.sub_diag. simpl.
    specialize (IH (pre ++ [l])).
    rewrite <- app_assoc, length_app in IH. simpl in IH.
    rewrite Nat.add_1_r in IH. rewrite IH.
    unfold has_type at 2.
    destruct (String.eqb (LayerType l) layerType); reflexivity.
Qed.

Lemma find_none_of_type :
  forall layerType layers,
    (forall l, In l layers -> LayerType l <> layerType) ->
    find (has_type layerType) layers = None.
Proof.
  intros layerType layers H.
  destruct (find (has_type layerType) layers) as [l |] eqn:E; [| reflexivity].
  apply find_some in E. destruct E as [Hin Hty].
  apply String.eqb_eq in Hty. now apply H in Hin.
Qed.

Lemma find_first_of_type :
  forall layerType pre l post,
    (forall x, In x pre -> LayerType x <> layerType) ->
    LayerType l = layerType ->
    find (has_type layerType) (pre ++ l :: post) = Some l.
Proof.
  induction pre as [| x pre IH]; intros l post Hpre Hl; simpl.
  - unfold has_type. apply String.eqb_eq in Hl. now rewrite Hl.
  - assert (Hx : has_type layerType x = false).
    { unfold has_type. apply String.eqb_neq. apply Hpre. now left. }
    rewrite Hx. apply IH; [| exact Hl].
    intros y Hy. apply Hpre. now right.
Qed.

(** What [findLayerByType] hands to its callback, once the listing has
    answered. *)
Lemma findLayerByType_answered :
  forall W (opsworks : OpsWorks W) stackId layerType st data w',
    describeLayers opsworks stackId (world st) = (Success data, w') ->
    findLayerByType opsworks stackId layerType st
    = (match Layers data with
       | None | Some [] => Err (NoLayers stackId)
       | Some layers => Ok (find (has_type layerType) layers)
       end,
       mkSt (this st) w', [DescribeLayers stackId]).
Proof.
  intros W opsworks stackId layerType st data w' H.
  unfold findLayerByType, bind, request. rewrite H.
  destruct (Layers data) as [[| l layers] |]; simpl; try reflexivity.
  pose proof (findLayerByType_loop_find layerType (l :: layers) [] None) as E.
  simpl in E. simpl. rewrite E. reflexivity.
Qed.

(** C4.  When the layer listing succeeds: with no layers (an absent or
    empty list) the callback gets an error; with at least one layer and
    none of the wanted type it gets no error and an explicit null; and
    otherwise it gets the first layer, in listing order, of the wanted
    type. *)
Theorem findLayerByType_first_match :
  forall W (opsworks : OpsWorks W) stackId layerType st data w',
    describeLayers opsworks stackId (world st) = (Success data, w') ->
    let outcome := findLayerByType opsworks stackId layerType st in
    let after := mkSt (this st) w' in
    ((Layers data = None \/ Layers data = Some []) ->
       outcome = (Err (NoLayers stackId), after, [DescribeLayers stackId]))
    /\ (forall layers,
          Layers data = Some layers -> layers <> [] ->
          (forall l, In l layers -> LayerType l <> layerType) ->
          outcome = (Ok None, after, [DescribeLayers stackId]))
    /\ (forall pre l post,
          Layers data = Some (pre ++ l :: post) ->
          (forall x, In x pre -> LayerType x <> layerType) ->
          LayerType l = layerType ->
          outcome = (Ok (Some l), after, [DescribeLayers stackId])).
Proof.
  intros W opsworks stackId layerType st data w' H outcome after.
  subst outcome after.
  rewrite (findLayerByType_answered W opsworks stackId layerType st data w' H).
  repeat split.
  - intros [E | E]; rewrite E; reflexivity.
  - intros layers E Hne Hnone. rewrite E.
    destruct layers as [| l layers]; [congruence |].
    now rewrite find_none_of_type.
  - intros pre l post E Hpre Hl. rewrite E.
    rewrite find_first_of_type by assumption.
    destruct pre; reflexivity.
Qed.

(** ** Looking up the application *)

(** C8.  When the service answers the lookup without an error, the
    callback gets the application-not-found error exactly when the list of
    applications is absent or empty, and otherwise gets no error and the
    first application of the list. *)
Theorem findApp_first_or_not_found :
  forall W (opsworks : OpsWorks W) appId st data w',
    describeApps opsworks [appId] (world st) = (Success data, w') ->
    let outcome := findApp opsworks appId st in
    let after := mkSt (this st) w' in
    ((Apps data = None \/ Apps data = Some []) ->
       outcome = (Err (AppNotFound appId), after, [DescribeApps [appId]])
       /\ is_NotFound (AppNotFound appId) = true)
    /\ (forall app rest,
          Apps data = Some (app :: rest) ->
          outcome = (Ok app, after, [DescribeApps [appId]]))
    /\ ((exists e, result_of outcome = Err e)
        <-> (Apps data = None \/ Apps data = Some [])).
Proof.
  intros W opsworks appId st data w' H outcome after. subst outcome after.
  unfold findApp, bind, request, result_of. rewrite H.
  destruct (Apps data) as [[| app rest] |]; simpl.
  - split; [| split].
    + intros _. split; reflexivity.
    + intros app rest E. discriminate E.
    + split; [intros _; now right | intros _; eauto].
  - split; [| split].
    + intros [E | E]; discriminate E.
    + intros app' rest' E. inversion E; subst. reflexivity.
    + split; [intros [e E]; discriminate E | intros [E | E]; discriminate E].
  - split; [| split].
    + intros _. split; reflexivity.
    + intros app rest E. discriminate E.
    + split; [intros _; now left | intros _; eauto].
Qed.

(** ** Running instances *)

Lemma findRunningInstancesByLayerId_answered :
  forall W (opsworks : OpsWorks W) layerId st data w',
    describeInstances opsworks layerId (world st) = (Success data, w') ->
    findRunningInstancesByLayerId opsworks layerId st
    = (Ok (filter is_online (Instances data)),
       mkSt (this st) w', [DescribeInstances layerId]).
Proof.
  intros W opsworks layerId st data w' H.
  unfold findRunningInstancesByLayerId, bind, request. rewrite H. reflexivity.
Qed.

Lemma filter_sublist :
  forall (A : Type) (f : A -> bool) (xs : list A), sublist (filter f xs) xs.
Proof.
  induction xs as [| x xs IH]; simpl.
  - constructor.
  - destruct (f x); now constructor.
Qed.

(** C5.  When the instance listing succeeds, [findRunningInstancesByLayerId]
    hands over, with no error, exactly the entries whose status is online,
    in their order, and so the empty list when none is online.  One level
    up, once the layer is found and its instances are listed,
    [findRunningInstances] fails with the no-running-instances error
    exactly when that filtered list is empty, and otherwise passes the
    list on. *)
Theorem findRunningInstances_online_only :
  forall W (opsworks : OpsWorks W) stackId layerType layer st st1 tr1 data w',
    findLayerByType opsworks stackId layerType st = (Ok (Some layer), st1, tr1) ->
    describeInstances opsworks (LayerId layer) (world st1) = (Success data, w') ->
    let online := filter is_online (Instances data) in
    let below := findRunningInstancesByLayerId opsworks (LayerId layer) st1 in
    let above := findRunningInstances opsworks stackId layerType st in
    below = (Ok online, mkSt (this st1) w', [DescribeInstances (LayerId layer)])
    /\ (forall i, In i online <->
                  In i (Instances data) /\ InstanceStatus i = "online")
    /\ sublist online (Instances data)
    /\ ((forall i, In i (Instances data) -> InstanceStatus i <> "online") ->
        result_of below = Ok [])
    /\ (result_of above = Err (NoRunningInstances (LayerId layer) stackId)
        <-> online = [])
    /\ is_NotFound (NoRunningInstances (LayerId layer) stackId) = true
    /\ (online <> [] -> result_of above = Ok online).
Proof.
  intros W opsworks stackId layerType layer st st1 tr1 data w' Hl Hi
         online below above.
  assert (Hbelow : below = (Ok online, mkSt (this st1) w',
                            [DescribeInstances (LayerId layer)])).
  { apply findRunningInstancesByLayerId_answered. exact Hi. }
  assert (Habove : result_of above
                   = if Nat.eqb (length online) 0
                     then Err (NoRunningInstances (LayerId layer) stackId)
                     else Ok online).
  { subst above. unfold findRunningInstances, bind at 1. rewrite Hl.
    unfold bind at 1. fold below. rewrite Hbelow.
    destruct (Nat.eqb (length online) 0); reflexivity. }
  split; [exact Hbelow |].
  split.
  { intros i. subst online. rewrite filter_In. unfold is_online.
    now rewrite String.eqb_eq. }
  split; [apply filter_sublist |].
  split.
  { intros Hnone. rewrite Hbelow. unfold result_of. simpl. f_equal.
    subst online. destruct (filter is_online (Instances data)) as [| i l] eqn:E;
      [reflexivity |].
    assert (Hin : In i (filter is_online (Instances data)))
      by (rewrite E; now left).
    apply filter_In in Hin. destruct Hin as [Hin Hon].
    apply String.eqb_eq in Hon. now apply Hnone in Hin. }
  split.
  { rewrite Habove. destruct online as [| i l]; simpl.
    - split; reflexivity.
    - split; intros E; discriminate E. }
  split; [reflexivity |].
  intros Hne. rewrite Habove. destruct online; [congruence | reflexivity].
Qed.

(** ** The status of the deployments *)

Lemma getDeploymentStatus_answered :
  forall W (opsworks : OpsWorks W) deploymentIds st data w',
    describeDeployments opsworks deploymentIds (world st) = (Success data, w') ->
    getDeploymentStatus opsworks deploymentIds st
    = (match Deployments data with
       | None => Err (InconsistentResult deploymentIds)
       | Some deployments =>
           if Nat.eqb (length deployments) (length deploymentIds)
           then Ok (_determineDeploymentStatus deployments)
           else Err (InconsistentResult deploymentIds)
       end,
       mkSt (this st) w', [DescribeDeployments deploymentIds]).
Proof.
  intros W opsworks deploymentIds st data w' H.
  unfold getDeploymentStatus, bind, request. rewrite H.
  destruct (Deployments data) as [deployments |]; simpl; [| reflexivity].
  destruct (Nat.eqb (length deployments) (length deploymentIds)); reflexivity.
Qed.

(** C3, as stated, fails: one id is requested and two records come back,
    so not fewer records than ids, and yet the callback gets the
    inconsistent-result error, not the aggregate. *)
Lemma getDeploymentStatus_surplus_records :
  fst (describeDeployments Stub.client ["d-1"] Stub.surplus)
  = Success {| Deployments := Some [mkDeployment "d-1" "successful";
                                    mkDeployment "d-1" "successful"] |}
  /\ ~ (length [mkDeployment "d-1" "successful"; mkDeployment "d-1" "successful"]
        < length ["d-1"])
  /\ result_of (getDeploymentStatus Stub.client ["d-1"] (Stub.start Stub.surplus))
     = Err (InconsistentResult ["d-1"])
  /\ result_of (getDeploymentStatus Stub.client ["d-1"] (Stub.start Stub.surplus))
     <> Ok (_determineDeploymentStatus
              [mkDeployment "d-1" "successful"; mkDeployment "d-1" "successful"]).
Proof.
  split; [reflexivity |].
  split; [simpl; lia |].
  split; [reflexivity |].
  vm_compute. discriminate.
Qed.

(** C3, amended.  When the service answers without an error, the callback
    gets the inconsistent-result error exactly when the list of records is
    absent or its length differs from the number of ids requested; when as
    many records as ids come back it gets no error and the aggregate
    status of the records. *)
Theorem getDeploymentStatus_inconsistent_iff_count_differs :
  forall W (opsworks : OpsWorks W) deploymentIds st data w',
    describeDeployments opsworks deploymentIds (world st) = (Success data, w') ->
    let outcome := getDeploymentStatus opsworks deploymentIds st in
    (result_of outcome = Err (InconsistentResult deploymentIds)
     <-> (Deployments data = None
          \/ exists deployments,
               Deployments data = Some deployments
               /\ length deployments <> length deploymentIds))
    /\ (forall deployments,
          Deployments data = Some deployments ->
          length deployments = length deploymentIds ->
          outcome = (Ok (_determineDeploymentStatus deployments),
                     mkSt (this st) w', [DescribeDeployments deploymentIds])).
Proof.
  intros W opsworks deploymentIds st data w' H outcome. subst outcome.
  rewrite (getDeploymentStatus_answered W opsworks deploymentIds st data w' H).
  unfold result_of. simpl.
  destruct (Deployments data) as [deployments |].
  - destruct (Nat.eqb (length deployments) (length deploymentIds)) eqn:E.
    + apply Nat.eqb_eq in E. split.
      * split; [intros D; discriminate D |].
        intros [D | [ds [D Hne]]]; [discriminate D |].
        inversion D; subst. congruence.
      * intros ds D _. inversion D; subst. reflexivity.
    + apply Nat.eqb_neq in E. split.
      * split; [| reflexivity]. intros _. right. now exists deployments.
      * intros ds D Hlen. inversion D; subst. congruence.
  - split.
    + split; [intros _; now left | reflexivity].
    + intros ds D. discriminate D.
Qed.

(** ** One round of polling *)

Lemma getDeploymentStatus_trace :
  forall W (opsworks : OpsWorks W) deploymentIds st,
    trace_of (getDeploymentStatus opsworks deploymentIds st)
    = [DescribeDeployments deploymentIds]
    /\ this (state_of (getDeploymentStatus opsworks deploymentIds st)) = this st.
Proof.
  intros W opsworks deploymentIds st.
  unfold getDeploymentStatus, bind, request, trace_of, state_of.
  destruct (describeDeployments opsworks deploymentIds (world st)) as [resp w'].
  destruct resp as [err | data]; simpl; [auto |].
  destruct (Deployments data) as [deployments |]; simpl; [| auto].
  destruct (Nat.eqb (length deployments) (length deploymentIds)); simpl; auto.
Qed.

(** One invocation, when the test on [this.state] does not fire: the
    timer, the status fetch, then the callback. *)
Lemma waitForDeployFinish_unfold :
  forall W (opsworks : OpsWorks W) fuel deploymentIds st,
    short_circuits (this st) = false ->
    waitForDeployFinish opsworks (S fuel) deploymentIds st
    = match getDeploymentStatus opsworks deploymentIds st with
      | (Ok status, st1, tr1) =>
          let '(r, st2, tr2) :=
            waitForDeployFinish_callback
              (waitForDeployFinish opsworks fuel deploymentIds) status st1 in
          (r, st2, SetTimeout (pollingTime (this st)) :: tr1 ++ tr2)
      | (Err e, st1, tr1) =>
          (Err e, st1, SetTimeout (pollingTime (this st)) :: tr1)
      | (OutOfFuel, st1, tr1) =>
          (OutOfFuel, st1, SetTimeout (pollingTime (this st)) :: tr1)
      end.
Proof.
  intros W opsworks fuel deploymentIds st Hsc.
  unfold short_circuits in Hsc.
  cbn [waitForDeployFinish].
  unfold bind at 1. unfold get_this at 1. cbn iota beta.
  unfold bind at 1. unfold emit at 1. cbn iota beta.
  unfold bind at 1. unfold get_this at 1. cbn iota beta.
  rewrite Hsc.
  unfold bind at 1.
  destruct (getDeploymentStatus opsworks deploymentIds st) as [[r st1] tr1].
  destruct r as [status | e |]; try reflexivity.
  destruct (waitForDeployFinish_callback
              (waitForDeployFinish opsworks fuel deploymentIds) status st1)
    as [[r2 st2] tr2].
  reflexivity.
Qed.

(** The callback, by cases on the aggregate status. *)
Lemma waitForDeployFinish_callback_cases :
  forall W (again : M W value) status st,
    let st' := mkSt (assign_deployStatus (this st) status) (world st) in
    waitForDeployFinish_callback again status st
    = match status with
      | Str s =>
          if String.eqb s "running" then
            let '(r, st2, tr2) := again st' in
            (r, st2, ConsoleLog (LogRunning (pollingTime (this st))) :: tr2)
          else if String.eqb s "failed" then (Err DeploymentFailed, st', [])
          else if String.eqb s "successful"
               then (Ok status, st', [ConsoleLog LogSuccessful])
          else (Err (UnknownStatus status), st', [])
      | _ => (Err (UnknownStatus status), st', [])
      end.
Proof.
  intros W again status st st'. subst st'.
  unfold waitForDeployFinish_callback.
  unfold bind at 1. unfold set_deployStatus at 1. cbn iota beta.
  destruct status as [| | s]; simpl; try reflexivity.
  destruct (String.eqb s "running").
  - unfold bind, get_this, console_log, emit. simpl.
    destruct (again _) as [[r st2] tr2]. destruct r; reflexivity.
  - destruct (String.eqb s "failed"); [reflexivity |].
    destruct (String.eqb s "successful"); reflexivity.
Qed.

(** Every invocation with fuel left starts by setting the timer. *)
Lemma waitForDeployFinish_starts_with_timer :
  forall W (opsworks : OpsWorks W) fuel deploymentIds st,
    exists rest,
      trace_of (waitForDeployFinish opsworks (S fuel) deploymentIds st)
      = SetTimeout (pollingTime (this st)) :: rest.
Proof.
  intros W opsworks fuel deploymentIds st.
  destruct (short_circuits (this st)) eqn:Hsc.
  - unfold short_circuits in Hsc. cbn [waitForDeployFinish].
    unfold bind at 1. unfold get_this at 1. cbn iota beta.
    unfold bind at 1. unfold emit at 1. cbn iota beta.
    unfold bind at 1. unfold get_this at 1. cbn iota beta.
    rewrite Hsc. unfold ret, trace_of. simpl. eauto.
  - rewrite waitForDeployFinish_unfold by exact Hsc.
    destruct (getDeploymentStatus opsworks deploymentIds st) as [[r st1] tr1].
    destruct r as [status | e |]; unfold trace_of; simpl; eauto.
    destruct (waitForDeployFinish_callback _ status st1) as [[r2 st2] tr2].
    simpl. eauto.
Qed.

(** C2.  In a polling iteration whose status fetch yields an aggregate,
    the outcome follows from the aggregate alone: running leads to another
    invocation, which first waits the polling interval; failed ends the
    run with the error that points to the OpsWorks deployment logs;
    successful ends the run with no error and successful as the result;
    any other value ends the run with the unknown-status error. *)
Theorem waitForDeployFinish_outcome_by_status :
  forall W (opsworks : OpsWorks W) fuel deploymentIds st status st1 tr1,
    short_circuits (this st) = false ->
    getDeploymentStatus opsworks deploymentIds st = (Ok status, st1, tr1) ->
    let p := pollingTime (this st) in
    let st2 := mkSt (assign_deployStatus (this st1) status) (world st1) in
    let outcome := waitForDeployFinish opsworks (S fuel) deploymentIds st in
    (status = Str "running" ->
       exists r st3 tr3,
         waitForDeployFinish opsworks fuel deploymentIds st2 = (r, st3, tr3)
         /\ outcome
            = (r, st3, SetTimeout p :: tr1 ++ ConsoleLog (LogRunning p) :: tr3)
         /\ (fuel <> 0 -> exists rest, tr3 = SetTimeout p :: rest))
    /\ (status = Str "failed" ->
          outcome = (Err DeploymentFailed, st2, SetTimeout p :: tr1)
          /\ message DeploymentFailed
             = "Deployment failed, look in Amazon OpsWorks deployment logs to see why")
    /\ (status = Str "successful" ->
          outcome = (Ok (Str "successful"), st2,
                     SetTimeout p :: tr1 ++ [ConsoleLog LogSuccessful]))
    /\ (status <> Str "running" -> status <> Str "failed" ->
        status <> Str "successful" ->
          outcome = (Err (UnknownStatus status), st2, SetTimeout p :: tr1)).
Proof.
  intros W opsworks fuel deploymentIds st status st1 tr1 Hsc Hget p st2 outcome.
  assert (Hthis : this st1 = this st).
  { pose proof (getDeploymentStatus_trace W opsworks deploymentIds st) as [_ H].
    rewrite Hget in H. exact H. }
  assert (Hout : outcome
                 = let '(r, s, t) :=
                     waitForDeployFinish_callback
                       (waitForDeployFinish opsworks fuel deploymentIds)
                       status st1 in
                   (r, s, SetTimeout p :: tr1 ++ t)).
  { subst outcome. rewrite waitForDeployFinish_unfold by exact Hsc.
    rewrite Hget. reflexivity. }
  rewrite waitForDeployFinish_callback_cases in Hout. fold st2 in Hout.
  split; [| split; [| split]].
  - intros ->. simpl in Hout.
    destruct (waitForDeployFinish opsworks fuel deploymentIds st2)
      as [[r st3] tr3] eqn:Hrec.
    exists r, st3, tr3. split; [reflexivity |]. split.
    + rewrite Hout, Hthis. reflexivity.
    + intros Hfuel. destruct fuel as [| fuel']; [congruence |].
      destruct (waitForDeployFinish_starts_with_timer
                  W opsworks fuel' deploymentIds st2) as [rest Hrest].
      rewrite Hrec in Hrest. unfold trace_of in Hrest. simpl in Hrest.
      exists rest. rewrite Hrest. subst p. rewrite Hthis. reflexivity.
  - intros ->. simpl in Hout. rewrite Hout, app_nil_r. split; reflexivity.
  - intros ->. simpl in Hout. rewrite Hout. reflexivity.
  - intros Hr Hf Hs. rewrite Hout.
    destruct status as [| | s]; try (rewrite app_nil_r; reflexivity).
    destruct (String.eqb s "running") eqn:E1;
      [apply String.eqb_eq in E1; congruence |].
    destruct (String.eqb s "failed") eqn:E2;
      [apply String.eqb_eq in E2; congruence |].
    destruct (String.eqb s "successful") eqn:E3;
      [apply String.eqb_eq in E3; congruence |].
    rewrite app_nil_r. reflexivity.
Qed.

(** C9.  The aggregate of no records is null, which is none of the three
    recognised statuses.  So a status fetch for no ids that the service
    answers with no records yields null, and the polling iteration ends
    with the unknown-status error, not with successful. *)
Theorem no_deployments_unknown_status :
  _determineDeploymentStatus [] = Null
  /\ (forall s, recognised s -> Null <> Str s)
  /\ (forall W (opsworks : OpsWorks W) st w',
        describeDeployments opsworks [] (world st)
        = (Success {| Deployments := Some [] |}, w') ->
        getDeploymentStatus opsworks [] st
        = (Ok Null, mkSt (this st) w', [DescribeDeployments []])
        /\ (short_circuits (this st) = false ->
            forall fuel,
              waitForDeployFinish opsworks (S fuel) [] st
              = (Err (UnknownStatus Null),
                 mkSt (assign_deployStatus (this st) Null) w',
                 [SetTimeout (pollingTime (this st)); DescribeDeployments []])))
  /\ message (UnknownStatus Null)
     = ("Unknown deployment status " ++ dq ++ "null" ++ dq)%string.
Proof.
  split; [reflexivity |].
  split; [intros s _ H; discriminate H |].
  split; [| reflexivity].
  intros W opsworks st w' H.
  assert (Hget : getDeploymentStatus opsworks [] st
                 = (Ok Null, mkSt (this st) w', [DescribeDeployments []])).
  { rewrite (getDeploymentStatus_answered W opsworks [] st _ w' H). reflexivity. }
  split; [exact Hget |].
  intros Hsc fuel.
  rewrite waitForDeployFinish_unfold by exact Hsc.
  rewrite Hget. rewrite waitForDeployFinish_callback_cases. reflexivity.
Qed.

(** ** What the methods leave alone *)

Lemma same_config_refl : forall a, same_config a a.
Proof. intros a. repeat split. Qed.

Lemma same_config_trans :
  forall a b c, same_config a b -> same_config b c -> same_config a c.
Proof.
  intros a b c (H1 & H2 & H3) (H4 & H5 & H6).
  repeat split; congruence.
Qed.

Section Frame.

Context {W : Type}.

Lemma keeps_ret : forall A (a : A), keeps_config (@ret W A a).
Proof. intros A a st. apply same_config_refl. Qed.

Lemma keeps_fail : forall A e, keeps_config (@fail W A e).
Proof. intros A e st. apply same_config_refl. Qed.

Lemma keeps_out_of_fuel : forall A, keeps_config (@out_of_fuel W A).
Proof. intros A st. apply same_config_refl. Qed.

Lemma keeps_emit : forall ev, keeps_config (@emit W ev).
Proof. intros ev st. apply same_config_refl. Qed.

Lemma keeps_console_log : forall line, keeps_config (@console_log W line).
Proof. intros line st. apply same_config_refl. Qed.

Lemma keeps_get_this : keeps_config (@get_this W).
Proof. intros st. apply same_config_refl. Qed.

Lemma keeps_set_deployStatus :
  forall status, keeps_config (@set_deployStatus W status).
Proof. intros status st. repeat split. Qed.

Lemma keeps_request :
  forall A ev (call : W -> A * W), keeps_config (request ev call).
Proof.
  intros A ev call st. unfold request, state_of.
  destruct (call (world st)) as [a w']. apply same_config_refl.
Qed.

Lemma keeps_bind :
  forall A B (m : M W A) (k : A -> M W B),
    keeps_config m -> (forall a, keeps_config (k a)) ->
    keeps_config (bind m k).
Proof.
  intros A B m k Hm Hk st. specialize (Hm st).
  unfold bind, state_of in *.
  destruct (m st) as [[r st1] tr1]. simpl in Hm.
  destruct r as [a | e |]; try exact Hm.
  specialize (Hk a st1). unfold state_of in Hk.
  destruct (k a st1) as [[r2 st2] tr2]. simpl in *.
  eapply same_config_trans; eassumption.
Qed.

Lemma only_ret : forall allowed A (a : A), emits_only allowed (@ret W A a).
Proof. intros allowed A a st. reflexivity. Qed.

Lemma only_fail : forall allowed A e, emits_only allowed (@fail W A e).
Proof. intros allowed A e st. reflexivity. Qed.

Lemma only_out_of_fuel : forall allowed A, emits_only allowed (@out_of_fuel W A).
Proof. intros allowed A st. reflexivity. Qed.

Lemma only_get_this : forall allowed, emits_only allowed (@get_this W).
Proof. intros allowed st. reflexivity. Qed.

Lemma only_set_deployStatus :
  forall allowed status, emits_only allowed (@set_deployStatus W status).
Proof. intros allowed status st. reflexivity. Qed.

Lemma only_emit :
  forall (allowed : Event -> bool) ev,
    allowed ev = true -> emits_only allowed (@emit W ev).
Proof.
  intros allowed ev H st. unfold emit, trace_of. simpl. now rewrite H.
Qed.

Lemma only_console_log :
  forall (allowed : Event -> bool) line,
    allowed (ConsoleLog line) = true ->
    emits_only allowed (@console_log W line).
Proof. intros allowed line H. now apply only_emit. Qed.

Lemma only_request :
  forall (allowed : Event -> bool) A ev (call : W -> A * W),
    allowed ev = true -> emits_only allowed (request ev call).
Proof.
  intros allowed A ev call H st. unfold request, trace_of.
  destruct (call (world st)) as [a w']. simpl. now rewrite H.
Qed.

Lemma only_bind :
  forall allowed A B (m : M W A) (k : A -> M W B),
    emits_only allowed m -> (forall a, emits_only allowed (k a)) ->
    emits_only allowed (bind m k).
Proof.
  intros allowed A B m k Hm Hk st. specialize (Hm st).
  unfold bind, trace_of in *.
  destruct (m st) as [[r st1] tr1]. simpl in Hm.
  destruct r as [a | e |]; try exact Hm.
  specialize (Hk a st1). unfold trace_of in Hk.
  destruct (k a st1) as [[r2 st2] tr2]. simpl in *.
  rewrite forallb_app, Hm, Hk. reflexivity.
Qed.

End Frame.

Create HintDb frame.
#[local] Hint Resolve keeps_ret keeps_fail keeps_out_of_fuel keeps_emit
  keeps_console_log keeps_get_this keeps_set_deployStatus keeps_request
  only_ret only_fail only_out_of_fuel only_get_this only_set_deployStatus
  : frame.

(** Walks through a method: binds, case distinctions, then the
    primitives. *)
Ltac frame :=
  repeat match goal with
    | |- keeps_config (bind _ _) => apply keeps_bind; [| intro]
    | |- emits_only _ (bind _ _) => apply only_bind; [| intro]
    | |- keeps_config (match ?x with _ => _ end) => destruct x
    | |- emits_only _ (match ?x with _ => _ end) => destruct x
    | |- emits_only _ (emit _) => apply only_emit; reflexivity
    | |- emits_only _ (console_log _) => apply only_console_log; reflexivity
    | |- emits_only _ (request _ _) => apply only_request; reflexivity
    | |- _ => solve [auto with frame]
    end.

Section Methods.

Variable W : Type.
Variable opsworks : OpsWorks W.

Lemma findApp_keeps : forall appId, keeps_config (findApp opsworks appId).
Proof. intros. unfold findApp. frame. Qed.

Lemma findLayerByType_keeps :
  forall stackId layerType,
    keeps_config (findLayerByType opsworks stackId layerType).
Proof. intros. unfold findLayerByType. frame. Qed.

Lemma findRunningInstancesByLayerId_keeps :
  forall layerId, keeps_config (findRunningInstancesByLayerId opsworks layerId).
Proof. intros. unfold findRunningInstancesByLayerId. frame. Qed.

Lemma findRunningInstances_keeps :
  forall stackId layerType,
    keeps_config (findRunningInstances opsworks stackId layerType).
Proof.
  intros. unfold findRunningInstances.
  pose proof findLayerByType_keeps. pose proof findRunningInstancesByLayerId_keeps.
  frame.
Qed.

Lemma updateApp_keeps :
  forall appId url, keeps_config (updateApp opsworks appId url).
Proof. intros. unfold updateApp. frame. Qed.

Lemma createDeployment_keeps :
  forall stackId appId, keeps_config (createDeployment opsworks stackId appId).
Proof. intros. unfold createDeployment. frame. Qed.

Lemma getDeploymentStatus_keeps :
  forall ids, keeps_config (getDeploymentStatus opsworks ids).
Proof. intros. unfold getDeploymentStatus. frame. Qed.

Lemma waitForDeployFinish_keeps :
  forall fuel ids, keeps_config (waitForDeployFinish opsworks fuel ids).
Proof.
  induction fuel as [| fuel IH]; intros ids; cbn [waitForDeployFinish].
  - frame.
  - pose proof getDeploymentStatus_keeps.
    unfold waitForDeployFinish_callback. frame.
Qed.

Lemma waterfall_keeps :
  forall fuel appId url, keeps_config (waterfall opsworks fuel appId url).
Proof.
  intros. unfold waterfall, doFindApp, doFindRunningInstances, doUpdateApp,
    doCreateDeployment, doWaitForDeployFinish.
  pose proof findApp_keeps. pose proof findRunningInstances_keeps.
  pose proof updateApp_keeps. pose proof createDeployment_keeps.
  pose proof waitForDeployFinish_keeps.
  frame.
Qed.

Lemma deploy_keeps :
  forall fuel appId url, keeps_config (deploy opsworks fuel appId url).
Proof.
  intros fuel appId url st.
  pose proof (waterfall_keeps fuel appId url st) as H.
  unfold deploy, state_of in *.
  destruct (waterfall opsworks fuel appId url st) as [[r st'] tr].
  destruct r; exact H.
Qed.

End Methods.

(** ** What the methods emit *)

Lemma emits_only_weaken :
  forall W A (P Q : Event -> bool) (m : M W A),
    (forall ev, P ev = true -> Q ev = true) ->
    emits_only P m -> emits_only Q m.
Proof.
  intros W A P Q m HPQ Hm st. specialize (Hm st).
  rewrite forallb_forall in *. auto.
Qed.

Lemma filter_excluded :
  forall (P Q : Event -> bool) tr,
    forallb P tr = true ->
    (forall ev, P ev = true -> Q ev = false) ->
    filter Q tr = [].
Proof.
  induction tr as [| ev tr IH]; intros H HPQ; simpl in *; [reflexivity |].
  apply andb_true_iff in H. destruct H as [Hev Htr].
  rewrite (HPQ ev Hev). now apply IH.
Qed.

Section Emissions.

Variable W : Type.
Variable opsworks : OpsWorks W.

Lemma findApp_lookups :
  forall appId, emits_only is_lookup (findApp opsworks appId).
Proof. intros. unfold findApp. frame. Qed.

Lemma findLayerByType_lookups :
  forall stackId layerType,
    emits_only is_lookup (findLayerByType opsworks stackId layerType).
Proof. intros. unfold findLayerByType. frame. Qed.

Lemma findRunningInstancesByLayerId_lookups :
  forall layerId,
    emits_only is_lookup (findRunningInstancesByLayerId opsworks layerId).
Proof. intros. unfold findRunningInstancesByLayerId. frame. Qed.

Lemma findRunningInstances_lookups :
  forall stackId layerType,
    emits_only is_lookup (findRunningInstances opsworks stackId layerType).
Proof.
  intros. unfold findRunningInstances.
  pose proof findLayerByType_lookups.
  pose proof findRunningInstancesByLayerId_lookups.
  frame.
Qed.

Lemma updateApp_mutates :
  forall appId url,
    emits_only is_mutation_or_console (updateApp opsworks appId url).
Proof. intros. unfold updateApp. frame. Qed.

Lemma createDeployment_mutates :
  forall stackId appId,
    emits_only is_mutation_or_console (createDeployment opsworks stackId appId).
Proof. intros. unfold createDeployment. frame. Qed.

Lemma getDeploymentStatus_polls :
  forall ids, emits_only is_poll_or_console (getDeploymentStatus opsworks ids).
Proof. intros. unfold getDeploymentStatus. frame. Qed.

Lemma waitForDeployFinish_polls :
  forall fuel ids,
    emits_only is_poll_or_console (waitForDeployFinish opsworks fuel ids).
Proof.
  induction fuel as [| fuel IH]; intros ids; cbn [waitForDeployFinish].
  - frame.
  - pose proof getDeploymentStatus_polls.
    unfold waitForDeployFinish_callback. frame.
Qed.

End Emissions.

(** ** The rounds of polling *)

Lemma short_circuits_same_config :
  forall a b, same_config a b -> short_circuits b = short_circuits a.
Proof.
  intros a b (_ & _ & H). unfold short_circuits. now rewrite H.
Qed.

(** Polling that is not cut short by [this.state] consists of whole
    rounds, one per invocation. *)
Lemma waitForDeployFinish_rounds :
  forall W (opsworks : OpsWorks W) fuel ids st,
    short_circuits (this st) = false ->
    exists k,
      filter is_poll (trace_of (waitForDeployFinish opsworks fuel ids st))
      = concat (repeat (poll_round (pollingTime (this st)) ids) k)
      /\ k <= fuel /\ (fuel <> 0 -> 1 <= k).
Proof.
  intros W opsworks fuel ids. induction fuel as [| fuel IH]; intros st Hsc.
  - exists 0. repeat split; simpl; [lia | congruence].
  - rewrite waitForDeployFinish_unfold by exact Hsc.
    destruct (getDeploymentStatus_trace W opsworks ids st) as [Htr Hthis].
    destruct (getDeploymentStatus opsworks ids st) as [[r st1] tr1].
    unfold trace_of, state_of in Htr, Hthis. simpl in Htr, Hthis. subst tr1.
    assert (Hone : forall n, 1 <= 1 /\ 1 <= S n /\ (S n <> 0 -> 1 <= 1))
      by (intros; lia).
    destruct r as [status | e |];
      try (exists 1; split; [reflexivity | lia]).
    rewrite waitForDeployFinish_callback_cases.
    destruct status as [| | s];
      try (exists 1; split; [reflexivity | lia]).
    destruct (String.eqb s "running").
    + set (st2 := mkSt (assign_deployStatus (this st1) (Str s)) (world st1)).
      assert (Hsc2 : short_circuits (this st2) = false).
      { subst st2. simpl. unfold short_circuits in *. simpl.
        rewrite Hthis. exact Hsc. }
      destruct (IH st2 Hsc2) as [k [Hk [Hle _]]].
      destruct (waitForDeployFinish opsworks fuel ids st2) as [[r2 st3] tr3].
      unfold trace_of in *. simpl in *.
      exists (S k). split; [| lia].
      simpl. rewrite Hk. rewrite Hthis. reflexivity.
    + destruct (String.eqb s "failed");
        [exists 1; split; [reflexivity | lia] |].
      destruct (String.eqb s "successful");
        exists 1; (split; [reflexivity | lia]).
Qed.

Lemma polls_in_rounds_wait :
  forall W (opsworks : OpsWorks W) fuel ids,
    polls_in_rounds (waitForDeployFinish opsworks fuel ids).
Proof.
  intros W opsworks fuel ids st Hsc.
  destruct (waitForDeployFinish_rounds W opsworks fuel ids st Hsc) as [k [Hk _]].
  now exists k, ids.
Qed.

(** A prefix that does no polling and leaves the configuration alone
    does not disturb the rounds. *)
Lemma polls_in_rounds_bind :
  forall W A B (m : M W A) (k : A -> M W B),
    emits_only not_poll m -> keeps_config m ->
    (forall a, polls_in_rounds (k a)) ->
    polls_in_rounds (bind m k).
Proof.
  intros W A B m k Hem Hkeep Hk st Hsc.
  specialize (Hem st). specialize (Hkeep st).
  assert (Hnone : filter is_poll (trace_of (m st)) = []).
  { apply filter_excluded with (P := not_poll); [exact Hem |].
    intros ev Hev. unfold not_poll in Hev. now apply negb_true_iff in Hev. }
  unfold bind, trace_of, state_of in *.
  destruct (m st) as [[r st1] tr1]. simpl in *.
  destruct r as [a | e |];
    try (exists 0, []; simpl; exact Hnone).
  assert (Hsc1 : short_circuits (this st1) = false)
    by (rewrite (short_circuits_same_config _ _ Hkeep); exact Hsc).
  destruct (Hk a st1 Hsc1) as [n [ids Hn]].
  destruct (k a st1) as [[r2 st2] tr2]. simpl in *.
  exists n, ids. rewrite filter_app, Hnone, Hn. simpl.
  destruct Hkeep as (_ & Hp & _). now rewrite Hp.
Qed.

Lemma lookup_not_poll : forall ev, is_lookup ev = true -> not_poll ev = true.
Proof. intros [] H; try reflexivity; discriminate H. Qed.

Lemma mutation_not_poll :
  forall ev, is_mutation_or_console ev = true -> not_poll ev = true.
Proof. intros [] H; try reflexivity; discriminate H. Qed.

Section Pipeline.

Variable W : Type.
Variable opsworks : OpsWorks W.

Lemma doFindRunningInstances_lookups :
  forall app, emits_only is_lookup (doFindRunningInstances opsworks app).
Proof.
  intros. unfold doFindRunningInstances.
  pose proof (findRunningInstances_lookups W opsworks). frame.
Qed.

Lemma doFindRunningInstances_keeps :
  forall app, keeps_config (doFindRunningInstances opsworks app).
Proof.
  intros. unfold doFindRunningInstances.
  pose proof (findRunningInstances_keeps W opsworks). frame.
Qed.

Lemma doUpdateApp_mutates :
  forall url app instances,
    emits_only is_mutation_or_console (doUpdateApp opsworks url app instances).
Proof.
  intros. unfold doUpdateApp.
  pose proof (updateApp_mutates W opsworks). frame.
Qed.

Lemma doUpdateApp_keeps :
  forall url app instances,
    keeps_config (doUpdateApp opsworks url app instances).
Proof.
  intros. unfold doUpdateApp.
  pose proof (updateApp_keeps W opsworks). frame.
Qed.

Lemma waterfall_rounds :
  forall fuel appId url, polls_in_rounds (waterfall opsworks fuel appId url).
Proof.
  intros fuel appId url. unfold waterfall.
  apply polls_in_rounds_bind.
  { eapply emits_only_weaken; [exact lookup_not_poll |].
    apply findApp_lookups. }
  { apply findApp_keeps. }
  intros app. apply polls_in_rounds_bind.
  { eapply emits_only_weaken; [exact lookup_not_poll |].
    apply doFindRunningInstances_lookups. }
  { apply doFindRunningInstances_keeps. }
  intros ai. apply polls_in_rounds_bind.
  { eapply emits_only_weaken; [exact mutation_not_poll |].
    apply doUpdateApp_mutates. }
  { apply doUpdateApp_keeps. }
  intros ai'. apply polls_in_rounds_bind.
  { eapply emits_only_weaken; [exact mutation_not_poll |].
    apply createDeployment_mutates. }
  { apply createDeployment_keeps. }
  intros deploymentId. apply polls_in_rounds_wait.
Qed.

Lemma deploy_rounds :
  forall fuel appId url, polls_in_rounds (deploy opsworks fuel appId url).
Proof.
  intros fuel appId url st Hsc.
  destruct (waterfall_rounds fuel appId url st Hsc) as [k [ids Hk]].
  exists k, ids. unfold deploy, trace_of in *.
  destruct (waterfall opsworks fuel appId url st) as [[r st'] tr].
  simpl in Hk.
  destruct r; simpl; try rewrite filter_app; simpl;
    try rewrite app_nil_r; exact Hk.
Qed.

End Pipeline.

(** C10.  The constructor leaves [this.state] undefined, and no method
    assigns it: each one hands on an object that differs from the one it
    got at most in [deployStatus], where a poll that ends the run stores
    the polled status.  So
    for an orchestrator made by the constructor, after any of its methods
    have run, the test on [this.state] never makes [waitForDeployFinish]
    return early: every invocation, the recursive ones included, sets the
    timer for the polling interval and then fetches the status afresh, in
    a direct call as well as at the end of [deploy]. *)
Theorem state_is_never_assigned :
  (forall options,
     state (OpsWorksDeploy options) = Undefined
     /\ short_circuits (OpsWorksDeploy options) = false)
  /\ (forall W (opsworks : OpsWorks W),
        (forall appId, keeps_config (findApp opsworks appId))
        /\ (forall stackId layerType,
              keeps_config (findRunningInstances opsworks stackId layerType))
        /\ (forall stackId layerType,
              keeps_config (findLayerByType opsworks stackId layerType))
        /\ (forall layerId,
              keeps_config (findRunningInstancesByLayerId opsworks layerId))
        /\ (forall appId url, keeps_config (updateApp opsworks appId url))
        /\ (forall stackId appId,
              keeps_config (createDeployment opsworks stackId appId))
        /\ (forall ids, keeps_config (getDeploymentStatus opsworks ids))
        /\ (forall fuel ids, keeps_config (waitForDeployFinish opsworks fuel ids))
        /\ (forall fuel appId url, keeps_config (deploy opsworks fuel appId url)))
  /\ (forall W (opsworks : OpsWorks W) options st fuel ids,
        same_config (OpsWorksDeploy options) (this st) ->
        (forall status st1 tr1,
           getDeploymentStatus opsworks ids st = (Ok status, st1, tr1) ->
           status <> Str "running" ->
           this (state_of (waitForDeployFinish opsworks (S fuel) ids st))
           = assign_deployStatus (this st) status)
        /\ exists k,
             filter is_poll (trace_of (waitForDeployFinish opsworks fuel ids st))
             = concat (repeat (poll_round (pollingTime (this st)) ids) k)
             /\ k <= fuel /\ (fuel <> 0 -> 1 <= k))
  /\ (forall W (opsworks : OpsWorks W) options w fuel appId url,
        exists k ids,
          filter is_poll
            (trace_of (deploy opsworks fuel appId url
                         (mkSt (OpsWorksDeploy options) w)))
          = concat (repeat (poll_round (pollingTime (OpsWorksDeploy options)) ids)
                           k)).
Proof.
  split; [intros options; split; reflexivity |].
  split.
  { intros W opsworks.
    repeat match goal with |- _ /\ _ => split end;
      auto using findApp_keeps, findRunningInstances_keeps,
        findLayerByType_keeps, findRunningInstancesByLayerId_keeps,
        updateApp_keeps, createDeployment_keeps, getDeploymentStatus_keeps,
        waitForDeployFinish_keeps, deploy_keeps. }
  split.
  { intros W opsworks options st fuel ids Hcfg.
    assert (Hsc : short_circuits (this st) = false)
      by (rewrite (short_circuits_same_config _ _ Hcfg); reflexivity).
    split.
    - intros status st1 tr1 Hget Hnot.
      rewrite waitForDeployFinish_unfold by exact Hsc.
      destruct (getDeploymentStatus_trace W opsworks ids st) as [_ Hthis].
      rewrite Hget in *. unfold state_of in Hthis. simpl in Hthis.
      rewrite waitForDeployFinish_callback_cases. rewrite Hthis.
      destruct status as [| | s]; try reflexivity.
      destruct (String.eqb s "running") eqn:E;
        [apply String.eqb_eq in E; congruence |].
      destruct (String.eqb s "failed"); [reflexivity |].
      destruct (String.eqb s "successful"); reflexivity.
    - apply waitForDeployFinish_rounds. exact Hsc. }
  intros W opsworks options w fuel appId url.
  apply (deploy_rounds W opsworks fuel appId url (mkSt (OpsWorksDeploy options) w)).
  reflexivity.
Qed.

(** ** The pipeline *)

Lemma bind_ok :
  forall W A B (m : M W A) (k : A -> M W B) st a st1 tr1,
    m st = (Ok a, st1, tr1) ->
    bind m k st = (let '(r, st2, tr2) := k a st1 in (r, st2, tr1 ++ tr2)).
Proof. intros W A B m k st a st1 tr1 H. unfold bind. now rewrite H. Qed.

Lemma bind_err :
  forall W A B (m : M W A) (k : A -> M W B) st e st1 tr1,
    m st = (Err e, st1, tr1) ->
    bind m k st = (Err e, st1, tr1).
Proof. intros W A B m k st e st1 tr1 H. unfold bind. now rewrite H. Qed.

Lemma bind_trace :
  forall W A B (m : M W A) (k : A -> M W B) st,
    exists rest, trace_of (bind m k st) = trace_of (m st) ++ rest.
Proof.
  intros W A B m k st. unfold bind, trace_of.
  destruct (m st) as [[r st1] tr1].
  destruct r as [a | e |]; simpl; try (exists []; now rewrite app_nil_r).
  destruct (k a st1) as [[r2 st2] tr2]. simpl. now exists tr2.
Qed.

(** The final callback of the waterfall adds at most the closing console
    line. *)
Lemma deploy_trace :
  forall W (opsworks : OpsWorks W) fuel appId url st,
    result_of (deploy opsworks fuel appId url st)
    = result_of (waterfall opsworks fuel appId url st)
    /\ state_of (deploy opsworks fuel appId url st)
       = state_of (waterfall opsworks fuel appId url st)
    /\ exists closing,
         trace_of (deploy opsworks fuel appId url st)
         = trace_of (waterfall opsworks fuel appId url st) ++ closing
         /\ (closing = []
             /\ result_of (waterfall opsworks fuel appId url st) = OutOfFuel
             \/ closing = [ConsoleLog LogFinished]
                /\ result_of (waterfall opsworks fuel appId url st) <> OutOfFuel).
Proof.
  intros W opsworks fuel appId url st.
  unfold deploy, result_of, state_of, trace_of.
  destruct (waterfall opsworks fuel appId url st) as [[r st'] tr].
  destruct r; simpl; repeat split.
  - exists [ConsoleLog LogFinished]. split; [reflexivity |].
    right. split; [reflexivity | discriminate].
  - exists [ConsoleLog LogFinished]. split; [reflexivity |].
    right. split; [reflexivity | discriminate].
  - exists []. split; [now rewrite app_nil_r |]. left. split; reflexivity.
Qed.

(** The first two tasks, when the application is found: the layer
    lookup is made in the stack of the application with its type followed
    by -app, and its outcome decides whether the third task runs. *)
Lemma waterfall_after_findApp :
  forall W (opsworks : OpsWorks W) fuel appId url st app st1 tr1,
    findApp opsworks appId st = (Ok app, st1, tr1) ->
    waterfall opsworks fuel appId url st
    = match findRunningInstances opsworks (StackId app)
              (Type_ app ++ "-app")%string st1 with
      | (Ok instances, st2, tr2) =>
          let '(r, st3, tr3) :=
            (ai' <- doUpdateApp opsworks url app instances ;;
             deploymentId <- doCreateDeployment opsworks (fst ai') (snd ai') ;;
             doWaitForDeployFinish opsworks fuel deploymentId) st2 in
          (r, st3, tr1 ++ tr2 ++ tr3)
      | (Err e, st2, tr2) => (Err e, st2, tr1 ++ tr2)
      | (OutOfFuel, st2, tr2) => (OutOfFuel, st2, tr1 ++ tr2)
      end.
Proof.
  intros W opsworks fuel appId url st app st1 tr1 Happ.
  unfold waterfall, doFindApp.
  rewrite (bind_ok _ _ _ _ _ _ _ _ _ Happ).
  unfold doFindRunningInstances.
  unfold bind at 1. unfold bind at 1.
  destruct (findRunningInstances opsworks (StackId app)
              (Type_ app ++ "-app")%string st1) as [[r st2] tr2].
  destruct r as [instances | e |]; try reflexivity.
  unfold ret at 1. cbn [fst snd]. rewrite app_nil_r.
  match goal with
  | |- context [bind ?m ?k st2] => destruct (bind m k st2) as [[r3 st3] tr3]
  end.
  reflexivity.
Qed.

Lemma findApp_answered :
  forall W (opsworks : OpsWorks W) appId st data w' app rest,
    describeApps opsworks [appId] (world st) = (Success data, w') ->
    Apps data = Some (app :: rest) ->
    findApp opsworks appId st = (Ok app, mkSt (this st) w', [DescribeApps [appId]]).
Proof.
  intros W opsworks appId st data w' app rest H E.
  unfold findApp, bind, request. rewrite H, E. reflexivity.
Qed.

Lemma findRunningInstancesByLayerId_first_event :
  forall W (opsworks : OpsWorks W) layerId st,
    trace_of (findRunningInstancesByLayerId opsworks layerId st)
    = [DescribeInstances layerId].
Proof.
  intros W opsworks layerId st.
  unfold findRunningInstancesByLayerId, bind, request, trace_of.
  destruct (describeInstances opsworks layerId (world st)) as [resp w'].
  destruct resp; reflexivity.
Qed.

(** C6.  In a run of [deploy] where the application is found and has type
    T, the layer is looked up in the stack of the application under the
    type T followed by -app: when a layer of that type is listed, the
    instances are fetched for the first such layer; when none is, the run
    ends with a not-found error after the two lookups, and neither
    [createDeployment] nor [updateApp] is requested. *)
Theorem deploy_looks_up_layer_by_app_type :
  forall W (opsworks : OpsWorks W) fuel appId url st adata w1 app others ldata w2,
    describeApps opsworks [appId] (world st) = (Success adata, w1) ->
    Apps adata = Some (app :: others) ->
    describeLayers opsworks (StackId app) w1 = (Success ldata, w2) ->
    let layerType := (Type_ app ++ "-app")%string in
    let outcome := deploy opsworks fuel appId url st in
    ((forall layers l,
        Layers ldata = Some layers -> In l layers -> LayerType l <> layerType) ->
     exists e,
       outcome = (Err e, mkSt (this st) w2,
                  [DescribeApps [appId]; DescribeLayers (StackId app);
                   ConsoleLog LogFinished])
       /\ e = match Layers ldata with
              | None | Some [] => NoLayers (StackId app)
              | Some _ => LayerNotFound layerType (StackId app)
              end
       /\ is_NotFound e = true
       /\ filter is_mutation (trace_of outcome) = [])
    /\ (forall pre l post,
          Layers ldata = Some (pre ++ l :: post) ->
          (forall x, In x pre -> LayerType x <> layerType) ->
          LayerType l = layerType ->
          exists rest,
            trace_of outcome
            = DescribeApps [appId] :: DescribeLayers (StackId app)
              :: DescribeInstances (LayerId l) :: rest).
Proof.
  intros W opsworks fuel appId url st adata w1 app others ldata w2
         Happs Hfirst Hlayers layerType outcome.
  pose proof (findApp_answered W opsworks appId st adata w1 app others
                Happs Hfirst) as Happ.
  pose proof (findLayerByType_answered W opsworks (StackId app) layerType
                (mkSt (this st) w1) ldata w2 Hlayers) as Hlayer.
  cbn [this world] in Hlayer.
  pose proof (waterfall_after_findApp W opsworks fuel appId url st app _ _ Happ)
    as Hwf.
  fold layerType in Hwf.
  split.
  - intros Hnone.
    set (e := match Layers ldata with
              | None | Some [] => NoLayers (StackId app)
              | Some _ => LayerNotFound layerType (StackId app)
              end).
    assert (Hfri : findRunningInstances opsworks (StackId app) layerType
                     (mkSt (this st) w1)
                   = (Err e, mkSt (this st) w2, [DescribeLayers (StackId app)])).
    { unfold findRunningInstances. subst e.
      destruct (Layers ldata) as [[| l0 layers] |] eqn:E.
      - apply bind_err. exact Hlayer.
      - rewrite (bind_ok _ _ _ _ _ _ _ _ _ Hlayer).
        rewrite find_none_of_type; [reflexivity |].
        intros l Hin. apply (Hnone (l0 :: layers) l eq_refl Hin).
      - apply bind_err. exact Hlayer. }
    rewrite Hfri in Hwf.
    exists e. subst outcome. unfold deploy. rewrite Hwf. simpl.
    split; [reflexivity |]. split; [reflexivity |].
    split; [| reflexivity].
    subst e. destruct (Layers ldata) as [[| ? ?] |]; reflexivity.
  - intros pre l post E Hpre Hl.
    rewrite E in Hlayer.
    rewrite find_first_of_type in Hlayer by assumption.
    assert (Hlayer' : findLayerByType opsworks (StackId app) layerType
                        (mkSt (this st) w1)
                      = (Ok (Some l), mkSt (this st) w2,
                         [DescribeLayers (StackId app)])).
    { rewrite Hlayer. destruct pre; reflexivity. }
    assert (Hfri : exists rest,
               trace_of (findRunningInstances opsworks (StackId app) layerType
                           (mkSt (this st) w1))
               = DescribeLayers (StackId app) :: DescribeInstances (LayerId l)
                 :: rest).
    { unfold findRunningInstances.
      rewrite (bind_ok _ _ _ _ _ _ _ _ _ Hlayer').
      match goal with
      | |- context [bind ?m ?k ?s] =>
          destruct (bind_trace _ _ _ m k s) as [rest Hrest];
          rewrite findRunningInstancesByLayerId_first_event in Hrest;
          destruct (bind m k s) as [[r3 st3] tr3]
      end.
      unfold trace_of in *. simpl in *. rewrite Hrest. now exists rest. }
    destruct Hfri as [rest Hrest].
    destruct (deploy_trace W opsworks fuel appId url st)
      as (_ & _ & closing & Hclosing & _).
    subst outcome. rewrite Hclosing. rewrite Hwf.
    destruct (findRunningInstances opsworks (StackId app) layerType
                (mkSt (this st) w1)) as [[r st2] tr2].
    unfold trace_of in Hrest. simpl in Hrest. subst tr2.
    destruct r as [instances | e |]; unfold trace_of; simpl; eauto.
    match goal with
    | |- context [bind ?m ?k st2] => destruct (bind m k st2) as [[r3 st3] tr3]
    end.
    simpl. eauto.
Qed.

Lemma poll_not_mutation :
  forall ev, is_poll_or_console ev = true -> is_mutation ev = false.
Proof. intros [] H; try reflexivity; discriminate H. Qed.

Lemma lookup_not_mutation :
  forall ev, is_lookup ev = true -> is_mutation ev = false.
Proof. intros [] H; try reflexivity; discriminate H. Qed.

(** The last two tasks: the deployment is requested once, and what
    follows changes nothing on the service. *)
Lemma create_then_wait :
  forall W (opsworks : OpsWorks W) fuel app instances st,
    exists rest,
      trace_of ((deploymentId <- doCreateDeployment opsworks app instances ;;
                 doWaitForDeployFinish opsworks fuel deploymentId) st)
      = ConsoleLog (LogCreated (AppId app) (StackId app))
        :: CreateDeployment "deploy" (StackId app) (AppId app) :: rest
      /\ filter is_mutation rest = [].
Proof.
  intros W opsworks fuel app instances st.
  unfold doCreateDeployment, createDeployment, doWaitForDeployFinish.
  unfold bind at 1. unfold bind at 1.
  unfold console_log at 1, emit at 1. cbn iota beta.
  unfold bind at 1. unfold request at 1.
  destruct (client_createDeployment opsworks "deploy" (StackId app) (AppId app)
              (world st)) as [resp w'].
  destruct resp as [err | data].
  - exists []. split; reflexivity.
  - unfold bind at 1. unfold console_log at 1, emit at 1. cbn iota beta.
    unfold ret at 1. cbn iota beta.
    pose proof (waitForDeployFinish_polls W opsworks fuel
                  [NewDeploymentId data] (mkSt (this st) w')) as Hpolls.
    cbn [this world].
    destruct (waitForDeployFinish opsworks fuel [NewDeploymentId data]
                (mkSt (this st) w')) as [[r st2] tr2].
    unfold trace_of in *. cbn [snd] in *.
    exists (ConsoleLog (LogStarted (NewDeploymentId data)) :: tr2).
    split; [reflexivity |].
    simpl. eapply filter_excluded; [exact Hpolls | exact poll_not_mutation].
Qed.

Lemma bind_ret_l :
  forall W A B (a : A) (k : A -> M W B) st, bind (ret a) k st = k a st.
Proof.
  intros W A B a k st. unfold bind, ret.
  destruct (k a st) as [[r st1] tr1]. reflexivity.
Qed.

Lemma updateApp_answered :
  forall W (opsworks : OpsWorks W) appId url st,
    updateApp opsworks appId url st
    = match client_updateApp opsworks appId url (world st) with
      | (None, w') =>
          (Ok tt, mkSt (this st) w',
           [UpdateApp appId url; ConsoleLog (LogUpdated appId url)])
      | (Some e, w') =>
          (Err (Upstream e), mkSt (this st) w', [UpdateApp appId url])
      end.
Proof.
  intros W opsworks appId url st. unfold updateApp, bind, request.
  destruct (client_updateApp opsworks appId url (world st)) as [err w'].
  destruct err; reflexivity.
Qed.

Lemma trace_of_prefixed :
  forall W A (x : Res A * St W * list Event) (pre : list Event),
    trace_of (let '(r, s, t) := x in (r, s, pre ++ t)) = pre ++ trace_of x.
Proof. intros W A [[r s] t] pre. reflexivity. Qed.

(** C7.  In a run of [deploy] that reaches the third task (the
    application and its running instances are found): with a source url
    that is not truthy, that is none at all or the empty string, [updateApp]
    is never requested, the next effect is the request of
    [createDeployment], and that request is made exactly once in the run;
    with a source url [u], the next effect is the request of
    [updateApp] with exactly [u], and [createDeployment] follows it, once,
    when the update succeeds and not at all when it fails. *)
Theorem deploy_updates_app_only_with_url :
  forall W (opsworks : OpsWorks W) fuel appId url st app st1 tr1
         instances st2 tr2,
    findApp opsworks appId st = (Ok app, st1, tr1) ->
    findRunningInstances opsworks (StackId app) (Type_ app ++ "-app")%string st1
    = (Ok instances, st2, tr2) ->
    let trace := trace_of (deploy opsworks fuel appId url st) in
    let create := CreateDeployment "deploy" (StackId app) (AppId app) in
    (truthy url = false ->
       filter is_mutation trace = [create]
       /\ exists rest,
            trace = tr1 ++ tr2
                    ++ ConsoleLog (LogCreated (AppId app) (StackId app))
                    :: create :: rest)
    /\ (forall u,
          url = Str u -> u <> "" ->
          filter is_mutation trace
          = match fst (client_updateApp opsworks (AppId app) u (world st2)) with
            | None => [UpdateApp (AppId app) u; create]
            | Some _ => [UpdateApp (AppId app) u]
            end
          /\ exists rest, trace = tr1 ++ tr2 ++ UpdateApp (AppId app) u :: rest).
Proof.
  intros W opsworks fuel appId url st app st1 tr1 instances st2 tr2
         Happ Hfri trace create.
  assert (H1 : filter is_mutation tr1 = []).
  { pose proof (findApp_lookups W opsworks appId st) as H.
    rewrite Happ in H. unfold trace_of in H. simpl in H.
    eapply filter_excluded; [exact H | exact lookup_not_mutation]. }
  assert (H2 : filter is_mutation tr2 = []).
  { pose proof (findRunningInstances_lookups W opsworks (StackId app)
                  (Type_ app ++ "-app")%string st1) as H.
    rewrite Hfri in H. unfold trace_of in H. simpl in H.
    eapply filter_excluded; [exact H | exact lookup_not_mutation]. }
  destruct (deploy_trace W opsworks fuel appId url st)
    as (_ & _ & closing & Hclosing & Hshape).
  assert (H3 : filter is_mutation closing = []).
  { destruct Hshape as [[-> _] | [-> _]]; reflexivity. }
  pose proof (waterfall_after_findApp W opsworks fuel appId url st app st1 tr1
                Happ) as Hwf.
  rewrite Hfri in Hwf.
  subst trace. rewrite Hclosing, Hwf. clear Hclosing Hwf Hshape.
  set (tail := ai' <- doUpdateApp opsworks url app instances ;;
               deploymentId <- doCreateDeployment opsworks (fst ai') (snd ai') ;;
               doWaitForDeployFinish opsworks fuel deploymentId).
  assert (Htrace : trace_of (let '(r, st3, tr3) := tail st2 in
                             (r, st3, tr1 ++ tr2 ++ tr3))
                   = tr1 ++ tr2 ++ trace_of (tail st2)).
  { destruct (tail st2) as [[r st3] tr3]. reflexivity. }
  rewrite Htrace. clear Htrace.
  split.
  - intros Hfalsy.
    destruct (create_then_wait W opsworks fuel app instances st2)
      as [rest [Hrest Hnone]].
    assert (Htail : trace_of (tail st2)
                    = ConsoleLog (LogCreated (AppId app) (StackId app))
                      :: create :: rest).
    { subst tail. unfold doUpdateApp. rewrite Hfalsy.
      rewrite bind_ret_l. exact Hrest. }
    rewrite Htail. split.
    + rewrite !filter_app, H1, H2, H3. simpl. now rewrite Hnone.
    + exists (rest ++ closing). now rewrite <- !app_assoc.
  - intros u -> Hu.
    assert (Htruthy : truthy (Str u) = true).
    { simpl. apply negb_true_iff. now apply String.eqb_neq. }
    subst tail. unfold doUpdateApp. rewrite Htruthy. cbn [to_string].
    pose proof (updateApp_answered W opsworks (AppId app) u st2) as Hupd.
    destruct (client_updateApp opsworks (AppId app) u (world st2)) as [err w'].
    destruct err as [e |]; cbn [fst].
    + rewrite (bind_err _ _ _ _ _ _ (Upstream e) (mkSt (this st2) w')
                 [UpdateApp (AppId app) u]).
      2:{ apply bind_err. exact Hupd. }
      unfold trace_of. cbn [snd]. split.
      * rewrite !filter_app, H1, H2, H3. reflexivity.
      * exists closing. now rewrite <- !app_assoc.
    + rewrite (bind_ok _ _ _ _ _ _ (app, instances) (mkSt (this st2) w')
                 [UpdateApp (AppId app) u;
                  ConsoleLog (LogUpdated (AppId app) u)]).
      2:{ rewrite (bind_ok _ _ _ _ _ _ _ _ _ Hupd). reflexivity. }
      cbn [fst snd].
      destruct (create_then_wait W opsworks fuel app instances
                  (mkSt (this st2) w')) as [rest [Hrest Hnone]].
      rewrite trace_of_prefixed, Hrest.
      split.
      * rewrite !filter_app, H1, H2, H3. simpl. now rewrite Hnone.
      * eexists. rewrite <- !app_assoc. simpl. reflexivity.
Qed.

(** * The theorems at concrete inputs *)

Lemma determineDeploymentStatus_precedence_rule_witness :
  _determineDeploymentStatus
    [mkDeployment "d-1" "successful"; mkDeployment "d-2" "running";
     mkDeployment "d-3" "failed"]
  = Str "running"
  /\ _determineDeploymentStatus
       [mkDeployment "d-1" "successful"; mkDeployment "d-2" "failed"]
     = Str "failed"
  /\ _determineDeploymentStatus
       [mkDeployment "d-1" "successful"; mkDeployment "d-2" "successful"]
     = Str "successful".
Proof.
  split; [| split].
  - apply (determineDeploymentStatus_precedence_rule
             [mkDeployment "d-1" "successful"; mkDeployment "d-2" "running";
              mkDeployment "d-3" "failed"]).
    + discriminate.
    + repeat (apply Forall_cons; [unfold recognised; simpl; auto |]).
      apply Forall_nil.
    + exists (mkDeployment "d-2" "running"). simpl. auto.
  - apply (determineDeploymentStatus_precedence_rule
             [mkDeployment "d-1" "successful"; mkDeployment "d-2" "failed"]).
    + discriminate.
    + repeat (apply Forall_cons; [unfold recognised; simpl; auto |]).
      apply Forall_nil.
    + intros d [<- | [<- | []]]; discriminate.
    + exists (mkDeployment "d-2" "failed"). simpl. auto.
  - apply (determineDeploymentStatus_precedence_rule
             [mkDeployment "d-1" "successful"; mkDeployment "d-2" "successful"]).
    + discriminate.
    + repeat (apply Forall_cons; [unfold recognised; simpl; auto |]).
      apply Forall_nil.
    + intros d [<- | [<- | []]]; discriminate.
    + intros d [<- | [<- | []]]; discriminate.
Defined.

Lemma waitForDeployFinish_outcome_by_status_witness :
  short_circuits (this (Stub.start Stub.finished)) = false
  /\ waitForDeployFinish Stub.client 1 ["d-1"] (Stub.start Stub.finished)
     = (Ok (Str "successful"),
        mkSt (assign_deployStatus (OpsWorksDeploy Stub.options) (Str "successful"))
             (Stub.mkWorld (Stub.apps Stub.healthy) (Stub.layers Stub.healthy)
                (Stub.instances Stub.healthy) None (Stub.create Stub.healthy) []),
        [SetTimeout 10000; DescribeDeployments ["d-1"]; ConsoleLog LogSuccessful]).
Proof.
  split; [reflexivity |].
  pose proof (waitForDeployFinish_outcome_by_status
                Stub.World Stub.client 0 ["d-1"] (Stub.start Stub.finished)
                (Str "successful") _ _ eq_refl eq_refl) as H.
  exact (proj1 (proj2 (proj2 H)) eq_refl).
Defined.

Lemma getDeploymentStatus_inconsistent_iff_count_differs_witness :
  getDeploymentStatus Stub.client ["d-1"] (Stub.start Stub.finished)
  = (Ok (Str "successful"),
     mkSt (OpsWorksDeploy Stub.options)
          (Stub.mkWorld (Stub.apps Stub.healthy) (Stub.layers Stub.healthy)
             (Stub.instances Stub.healthy) None (Stub.create Stub.healthy) []),
     [DescribeDeployments ["d-1"]])
  /\ result_of (getDeploymentStatus Stub.client ["d-1"] (Stub.start Stub.surplus))
     = Err (InconsistentResult ["d-1"]).
Proof.
  split.
  - exact (proj2 (getDeploymentStatus_inconsistent_iff_count_differs
                    Stub.World Stub.client ["d-1"] (Stub.start Stub.finished)
                    _ _ eq_refl)
                 [mkDeployment "d-1" "successful"] eq_refl eq_refl).
  - apply (proj1 (getDeploymentStatus_inconsistent_iff_count_differs
                    Stub.World Stub.client ["d-1"] (Stub.start Stub.surplus)
                    _ _ eq_refl)).
    right. eexists. split; [reflexivity | simpl; lia].
Defined.

Lemma findLayerByType_first_match_witness :
  findLayerByType Stub.client "stack-1" "rails-app" (Stub.start Stub.healthy)
  = (Ok (Some (mkLayer "layer-1" "rails-app")),
     Stub.start Stub.healthy, [DescribeLayers "stack-1"])
  /\ findLayerByType Stub.client "stack-1" "rails-app" (Stub.start Stub.no_layer)
     = (Ok None, Stub.start Stub.no_layer, [DescribeLayers "stack-1"]).
Proof.
  split.
  - apply (proj2 (proj2 (findLayerByType_first_match
                           Stub.World Stub.client "stack-1" "rails-app"
                           (Stub.start Stub.healthy) _ _ eq_refl))
                 [mkLayer "layer-db" "db-master"]
                 (mkLayer "layer-1" "rails-app")
                 [mkLayer "layer-2" "rails-app"]).
    + reflexivity.
    + intros x [<- | []]. discriminate.
    + reflexivity.
  - apply (proj1 (proj2 (findLayerByType_first_match
                           Stub.World Stub.client "stack-1" "rails-app"
                           (Stub.start Stub.no_layer) _ _ eq_refl))
                 [mkLayer "layer-db" "db-master"]).
    + reflexivity.
    + discriminate.
    + intros x [<- | []]. discriminate.
Defined.

Lemma findRunningInstances_online_only_witness :
  result_of (findRunningInstances Stub.client "stack-1" "rails-app"
               (Stub.start Stub.healthy))
  = Ok [mkInstance "i-2" "online"].
Proof.
  pose proof (findRunningInstances_online_only
                Stub.World Stub.client "stack-1" "rails-app"
                (mkLayer "layer-1" "rails-app") (Stub.start Stub.healthy)
                _ _ _ _ eq_refl eq_refl) as H.
  apply H. discriminate.
Defined.

Lemma findApp_first_or_not_found_witness :
  findApp Stub.client "app-1" (Stub.start Stub.healthy)
  = (Ok Stub.rails, Stub.start Stub.healthy, [DescribeApps ["app-1"]]).
Proof.
  exact (proj1 (proj2 (findApp_first_or_not_found
                         Stub.World Stub.client "app-1"
                         (Stub.start Stub.healthy) _ _ eq_refl))
               Stub.rails [] eq_refl).
Defined.

Lemma no_deployments_unknown_status_witness :
  waitForDeployFinish Stub.client 1 [] (Stub.start Stub.idle)
  = (Err (UnknownStatus Null),
     mkSt (assign_deployStatus (OpsWorksDeploy Stub.options) Null)
          (Stub.mkWorld (Stub.apps Stub.healthy) (Stub.layers Stub.healthy)
             (Stub.instances Stub.healthy) None (Stub.create Stub.healthy) []),
     [SetTimeout 10000; DescribeDeployments []]).
Proof.
  destruct no_deployments_unknown_status as (_ & _ & H & _).
  exact (proj2 (H Stub.World Stub.client (Stub.start Stub.idle) _ eq_refl)
               eq_refl 0).
Defined.

Lemma deploy_looks_up_layer_by_app_type_witness :
  exists e,
    deploy Stub.client 5 "app-1" Null (Stub.start Stub.no_layer)
    = (Err e, Stub.start Stub.no_layer,
       [DescribeApps ["app-1"]; DescribeLayers "stack-1"; ConsoleLog LogFinished])
    /\ e = LayerNotFound "rails-app" "stack-1"
    /\ is_NotFound e = true
    /\ filter is_mutation
         (trace_of (deploy Stub.client 5 "app-1" Null (Stub.start Stub.no_layer)))
       = [].
Proof.
  apply (proj1 (deploy_looks_up_layer_by_app_type
                  Stub.World Stub.client 5 "app-1" Null
                  (Stub.start Stub.no_layer) _ _ Stub.rails [] _ _
                  eq_refl eq_refl eq_refl)).
  intros layers l E Hin. inversion E; subst.
  destruct Hin as [<- | []]. discriminate.
Defined.

Lemma deploy_updates_app_only_with_url_witness :
  filter is_mutation
    (trace_of (deploy Stub.client 5 "app-1" Null (Stub.start Stub.healthy)))
  = [CreateDeployment "deploy" "stack-1" "app-1"]
  /\ filter is_mutation
       (trace_of (deploy Stub.client 5 "app-1" (Str "https://s3/app-1.0.0.tar.gz")
                    (Stub.start Stub.healthy)))
     = [UpdateApp "app-1" "https://s3/app-1.0.0.tar.gz";
        CreateDeployment "deploy" "stack-1" "app-1"].
Proof.
  split.
  - apply (proj1 (deploy_updates_app_only_with_url
                    Stub.World Stub.client 5 "app-1" Null
                    (Stub.start Stub.healthy) Stub.rails _ _ _ _ _
                    eq_refl eq_refl)).
    reflexivity.
  - apply (proj2 (deploy_updates_app_only_with_url
                    Stub.World Stub.client 5 "app-1"
                    (Str "https://s3/app-1.0.0.tar.gz")
                    (Stub.start Stub.healthy) Stub.rails _ _ _ _ _
                    eq_refl eq_refl)
                 "https://s3/app-1.0.0.tar.gz" eq_refl).
    discriminate.
Defined.

Lemma state_is_never_assigned_witness :
  exists k,
    filter is_poll
      (trace_of (waitForDeployFinish Stub.client 5 ["d-1"]
                   (Stub.start Stub.healthy)))
    = concat (repeat (poll_round 10000 ["d-1"]) k)
    /\ k <= 5 /\ (5 <> 0 -> 1 <= k).
Proof.
  destruct state_is_never_assigned as (_ & _ & H & _).
  apply (H Stub.World Stub.client Stub.options (Stub.start Stub.healthy) 5 ["d-1"]).
  apply same_config_refl.
Defined.

(** * Further properties *)

(** ** The aggregate status as a function of the records *)

Lemma existsb_Permutation :
  forall (A : Type) (f : A -> bool) (xs ys : list A),
    Permutation xs ys -> existsb f xs = existsb f ys.
Proof.
  intros A f xs ys H. induction H; simpl.
  - reflexivity.
  - now rewrite IHPermutation.
  - destruct (f x), (f y); reflexivity.
  - congruence.
Qed.

(** X1.  The aggregate status does not depend on the order of the
    records. *)
Theorem determineDeploymentStatus_order_irrelevant :
  forall ds ds' : list Deployment,
    Permutation ds ds' ->
    _determineDeploymentStatus ds = _determineDeploymentStatus ds'.
Proof.
  intros ds ds' H.
  destruct ds as [| d ds].
  - apply Permutation_nil in H. now subst.
  - destruct ds' as [| d' ds'].
    + apply Permutation_sym, Permutation_nil in H. discriminate H.
    + rewrite !_determineDeploymentStatus_precedence.
      rewrite (existsb_Permutation _ is_running _ _ H).
      rewrite (existsb_Permutation _ is_failed _ _ H).
      reflexivity.
Qed.

Lemma determineDeploymentStatus_order_irrelevant_witness :
  _determineDeploymentStatus
    [mkDeployment "d-1" "failed"; mkDeployment "d-2" "running"]
  = _determineDeploymentStatus
      [mkDeployment "d-2" "running"; mkDeployment "d-1" "failed"].
Proof.
  apply determineDeploymentStatus_order_irrelevant. apply perm_swap.
Defined.

(** The aggregate in closed form, the empty list included. *)
Lemma _determineDeploymentStatus_closed_form :
  forall ds,
    _determineDeploymentStatus ds
    = if existsb is_running ds then Str "running"
      else if existsb is_failed ds then Str "failed"
      else match ds with
           | [] => Null
           | _ :: _ => Str "successful"
           end.
Proof.
  intros [| d ds]; [reflexivity |].
  rewrite _determineDeploymentStatus_precedence.
  destruct (existsb is_running (d :: ds)); [reflexivity |].
  destruct (existsb is_failed (d :: ds)); reflexivity.
Qed.

(** X2.  Aggregating two batches of records and joining the two
    aggregates gives the aggregate of all the records. *)
Theorem determineDeploymentStatus_app :
  forall ds1 ds2 : list Deployment,
    _determineDeploymentStatus (ds1 ++ ds2)
    = join_status (_determineDeploymentStatus ds1)
                  (_determineDeploymentStatus ds2).
Proof.
  intros ds1 ds2. rewrite !_determineDeploymentStatus_closed_form.
  rewrite !existsb_app.
  destruct (existsb is_running ds1), (existsb is_running ds2),
    (existsb is_failed ds1), (existsb is_failed ds2), ds1, ds2;
    reflexivity.
Qed.

(** X3.  The aggregate is null for the empty list only, and otherwise
    is one of running, failed and successful, whatever statuses the
    records carry. *)
Theorem determineDeploymentStatus_range :
  forall ds : list Deployment,
    (_determineDeploymentStatus ds = Null <-> ds = [])
    /\ (ds <> [] ->
        _determineDeploymentStatus ds = Str "running"
        \/ _determineDeploymentStatus ds = Str "failed"
        \/ _determineDeploymentStatus ds = Str "successful").
Proof.
  intros ds. rewrite _determineDeploymentStatus_closed_form.
  destruct (existsb is_running ds) eqn:R.
  { split; [| auto]. split; [discriminate |]. intros ->. discriminate R. }
  destruct (existsb is_failed ds) eqn:E.
  { split; [| auto]. split; [discriminate |]. intros ->. discriminate E. }
  destruct ds as [| d ds].
  - split; [split; reflexivity | congruence].
  - split; [| auto]. split; discriminate.
Qed.

(** X4.  A status that is neither running nor failed counts as
    successful, whatever it is: records none of which is running or
    failed aggregate to successful. *)
Theorem determineDeploymentStatus_other_statuses_succeed :
  forall ds : list Deployment,
    ds <> [] ->
    (forall d, In d ds -> Status d <> "running" /\ Status d <> "failed") ->
    _determineDeploymentStatus ds = Str "successful".
Proof.
  intros ds Hne H. rewrite _determineDeploymentStatus_closed_form.
  assert (Hr : existsb is_running ds = false).
  { destruct (existsb is_running ds) eqn:E; [| reflexivity].
    apply existsb_exists in E. destruct E as [d [Hin Hd]].
    apply String.eqb_eq in Hd. now apply H in Hin. }
  assert (Hf : existsb is_failed ds = false).
  { destruct (existsb is_failed ds) eqn:E; [| reflexivity].
    apply existsb_exists in E. destruct E as [d [Hin Hd]].
    apply String.eqb_eq in Hd. now apply H in Hin. }
  rewrite Hr, Hf. destruct ds; [congruence | reflexivity].
Qed.

Lemma determineDeploymentStatus_other_statuses_succeed_witness :
  _determineDeploymentStatus
    [mkDeployment "d-1" "skipped"; mkDeployment "d-2" "successful"]
  = Str "successful".
Proof.
  apply determineDeploymentStatus_other_statuses_succeed.
  - discriminate.
  - intros d [<- | [<- | []]]; split; discriminate.
Defined.

(** ** Polling over several rounds *)

(** One invocation that sees the deployments running. *)
Lemma waitForDeployFinish_running_round :
  forall W (opsworks : OpsWorks W) fuel ids st st1 tr1,
    short_circuits (this st) = false ->
    getDeploymentStatus opsworks ids st = (Ok (Str "running"), st1, tr1) ->
    this st1 = this st
    /\ waitForDeployFinish opsworks (S fuel) ids st
       = let '(r, s, t) :=
           waitForDeployFinish opsworks fuel ids
             (mkSt (assign_deployStatus (this st1) (Str "running")) (world st1)) in
         (r, s, running_round (pollingTime (this st)) ids ++ t).
Proof.
  intros W opsworks fuel ids st st1 tr1 Hsc Hget.
  destruct (getDeploymentStatus_trace W opsworks ids st) as [Htr Hthis].
  rewrite Hget in Htr, Hthis. unfold trace_of in Htr. unfold state_of in Hthis.
  simpl in Htr, Hthis. subst tr1. split; [exact Hthis |].
  rewrite waitForDeployFinish_unfold by exact Hsc. rewrite Hget.
  rewrite waitForDeployFinish_callback_cases. simpl.
  destruct (waitForDeployFinish opsworks fuel ids _) as [[r s] t].
  rewrite Hthis. reflexivity.
Qed.

(** After [n] status fetches in a row that yield running, polling has
    set [n] timers and made [n] fetches, stored running in
    [deployStatus], and goes on as a fresh call would from there. *)
Lemma waitForDeployFinish_after_running_rounds :
  forall W (opsworks : OpsWorks W) ids n st st',
    running_rounds opsworks ids n st st' ->
    short_circuits (this st) = false ->
    same_config (this st) (this st')
    /\ (n <> 0 -> deployStatus (this st') = Str "running")
    /\ forall fuel,
         waitForDeployFinish opsworks (n + fuel) ids st
         = let '(r, s, t) := waitForDeployFinish opsworks fuel ids st' in
           (r, s,
            concat (repeat (running_round (pollingTime (this st)) ids) n) ++ t).
Proof.
  intros W opsworks ids n st st' H.
  induction H as [st | n st st1 tr1 st' Hget Hrest IH]; intros Hsc.
  - split; [apply same_config_refl |]. split; [congruence |].
    intros fuel. simpl.
    destruct (waitForDeployFinish opsworks fuel ids st) as [[r s] t].
    reflexivity.
  - assert (Hround := fun fuel =>
              waitForDeployFinish_running_round W opsworks fuel ids st st1 tr1
                Hsc Hget).
    destruct (Hround 0) as [Hthis _].
    set (st2 := mkSt (assign_deployStatus (this st1) (Str "running"))
                     (world st1)) in *.
    assert (Hcfg : same_config (this st) (this st2)).
    { subst st2. simpl. rewrite Hthis. repeat split. }
    assert (Hsc2 : short_circuits (this st2) = false)
      by (rewrite (short_circuits_same_config _ _ Hcfg); exact Hsc).
    destruct (IH Hsc2) as (Hcfg' & Hstatus & Hfuel).
    split; [eapply same_config_trans; eassumption |].
    split.
    + intros _. destruct n as [| n'].
      * inversion Hrest; subst. reflexivity.
      * apply Hstatus. discriminate.
    + intros fuel. cbn [Nat.add].
      destruct (Hround (n + fuel)) as [_ Hstep]. rewrite Hstep.
      rewrite Hfuel.
      destruct (waitForDeployFinish opsworks fuel ids st') as [[r s] t].
      destruct Hcfg as (_ & Hp & _). rewrite <- Hp.
      cbn [repeat concat]. now rewrite <- app_assoc.
Qed.

(** X5.  When the deployments are seen running [n] times and then
    successful, polling ends with no error and successful, after [n + 1]
    timers and fetches, however much longer it was allowed to go on. *)
Theorem waitForDeployFinish_successful_after_running :
  forall W (opsworks : OpsWorks W) ids n st st' st1 tr1 fuel,
    short_circuits (this st) = false ->
    running_rounds opsworks ids n st st' ->
    getDeploymentStatus opsworks ids st' = (Ok (Str "successful"), st1, tr1) ->
    n < fuel ->
    waitForDeployFinish opsworks fuel ids st
    = (Ok (Str "successful"),
       mkSt (assign_deployStatus (this st1) (Str "successful")) (world st1),
       concat (repeat (running_round (pollingTime (this st)) ids) n)
       ++ [SetTimeout (pollingTime (this st)); DescribeDeployments ids;
           ConsoleLog LogSuccessful]).
Proof.
  intros W opsworks ids n st st' st1 tr1 fuel Hsc Hrounds Hget Hlt.
  destruct (waitForDeployFinish_after_running_rounds
              W opsworks ids n st st' Hrounds Hsc) as (Hcfg & _ & Hfuel).
  replace fuel with (n + S (fuel - S n)) by lia.
  rewrite Hfuel.
  assert (Hsc' : short_circuits (this st') = false)
    by (rewrite (short_circuits_same_config _ _ Hcfg); exact Hsc).
  rewrite waitForDeployFinish_unfold by exact Hsc'.
  destruct (getDeploymentStatus_trace W opsworks ids st') as [Htr _].
  rewrite Hget in *. unfold trace_of in Htr. simpl in Htr. subst tr1.
  rewrite waitForDeployFinish_callback_cases. simpl.
  destruct Hcfg as (_ & Hp & _). rewrite Hp. reflexivity.
Qed.

Lemma waitForDeployFinish_successful_after_running_witness :
  waitForDeployFinish Stub.client 7 ["d-1"] (Stub.start Stub.healthy)
  = (Ok (Str "successful"),
     mkSt (assign_deployStatus (OpsWorksDeploy Stub.options) (Str "successful"))
          (Stub.mkWorld (Stub.apps Stub.healthy) (Stub.layers Stub.healthy)
             (Stub.instances Stub.healthy) None (Stub.create Stub.healthy) []),
     running_round 10000 ["d-1"] ++ running_round 10000 ["d-1"]
     ++ [SetTimeout 10000; DescribeDeployments ["d-1"]; ConsoleLog LogSuccessful]).
Proof.
  assert (Hrounds :
            running_rounds Stub.client ["d-1"] 2 (Stub.start Stub.healthy)
              (mkSt (assign_deployStatus (OpsWorksDeploy Stub.options)
                                         (Str "running"))
                    (Stub.mkWorld (Stub.apps Stub.healthy)
                       (Stub.layers Stub.healthy) (Stub.instances Stub.healthy)
                       None (Stub.create Stub.healthy)
                       [Stub.statuses ["successful"]]))).
  { eapply running_rounds_S; [reflexivity |].
    eapply running_rounds_S; [reflexivity |].
    apply running_rounds_O. }
  assert (Hlt : 2 < 7) by lia.
  exact (waitForDeployFinish_successful_after_running
           Stub.World Stub.client ["d-1"] 2 (Stub.start Stub.healthy)
           _ _ _ 7 eq_refl Hrounds eq_refl Hlt).
Defined.

(** X6.  Polling has no bound of its own: on a service where every
    status fetch yields running, no number of rounds ends it, and each
    round allowed is spent on a timer and a fetch. *)
Theorem waitForDeployFinish_polls_while_running :
  forall W (opsworks : OpsWorks W) (always : W -> Prop) ids,
    (forall w, always w ->
       exists data w' ds,
         describeDeployments opsworks ids w = (Success data, w')
         /\ Deployments data = Some ds
         /\ length ds = length ids
         /\ _determineDeploymentStatus ds = Str "running"
         /\ always w') ->
    forall fuel st,
      short_circuits (this st) = false ->
      always (world st) ->
      result_of (waitForDeployFinish opsworks fuel ids st) = OutOfFuel
      /\ filter is_poll (trace_of (waitForDeployFinish opsworks fuel ids st))
         = concat (repeat (poll_round (pollingTime (this st)) ids) fuel).
Proof.
  intros W opsworks always ids Hstep fuel.
  induction fuel as [| fuel IH]; intros st Hsc Hw.
  - split; reflexivity.
  - destruct (Hstep (world st) Hw) as (data & w' & ds & Hd & Hds & Hlen & Hagg & Hw').
    pose proof (getDeploymentStatus_answered W opsworks ids st data w' Hd) as Hget.
    rewrite Hds in Hget. apply Nat.eqb_eq in Hlen. rewrite Hlen, Hagg in Hget.
    destruct (waitForDeployFinish_running_round
                W opsworks fuel ids st _ _ Hsc Hget) as [_ Hround].
    rewrite Hround. cbn [this world].
    set (st2 := mkSt (assign_deployStatus (this st) (Str "running")) w').
    assert (Hsc2 : short_circuits (this st2) = false) by exact Hsc.
    destruct (IH st2 Hsc2 Hw') as [Hres Htr].
    destruct (waitForDeployFinish opsworks fuel ids st2) as [[r s] t].
    unfold result_of, trace_of in *. simpl in *.
    split; [exact Hres |]. now rewrite Htr.
Qed.

Lemma waitForDeployFinish_polls_while_running_witness :
  result_of (waitForDeployFinish Busy.client 4 ["d-1"]
               (mkSt (OpsWorksDeploy opsWorksOptions) 0))
  = OutOfFuel
  /\ filter is_poll
       (trace_of (waitForDeployFinish Busy.client 4 ["d-1"]
                    (mkSt (OpsWorksDeploy opsWorksOptions) 0)))
     = concat (repeat (poll_round 10000 ["d-1"]) 4).
Proof.
  apply (waitForDeployFinish_polls_while_running
           nat Busy.client (fun _ => True) ["d-1"]).
  - intros w _. eexists _, _, _.
    split; [reflexivity |]. split; [reflexivity |].
    split; [reflexivity |]. split; [reflexivity | exact I].
  - reflexivity.
  - exact I.
Defined.

(** X7.  A status fetch that fails, at any round, ends polling at once
    with the error of the fetch: there is no retry, and [deployStatus]
    keeps the status stored by the round before. *)
Theorem waitForDeployFinish_stops_at_failed_fetch :
  forall W (opsworks : OpsWorks W) ids n st st' e st1 tr1 fuel,
    short_circuits (this st) = false ->
    running_rounds opsworks ids n st st' ->
    getDeploymentStatus opsworks ids st' = (Err e, st1, tr1) ->
    n < fuel ->
    waitForDeployFinish opsworks fuel ids st
    = (Err e, st1,
       concat (repeat (running_round (pollingTime (this st)) ids) n)
       ++ [SetTimeout (pollingTime (this st)); DescribeDeployments ids])
    /\ this st1 = this st'.
Proof.
  intros W opsworks ids n st st' e st1 tr1 fuel Hsc Hrounds Hget Hlt.
  destruct (waitForDeployFinish_after_running_rounds
              W opsworks ids n st st' Hrounds Hsc) as (Hcfg & _ & Hfuel).
  replace fuel with (n + S (fuel - S n)) by lia.
  rewrite Hfuel.
  assert (Hsc' : short_circuits (this st') = false)
    by (rewrite (short_circuits_same_config _ _ Hcfg); exact Hsc).
  rewrite waitForDeployFinish_unfold by exact Hsc'.
  destruct (getDeploymentStatus_trace W opsworks ids st') as [Htr Hthis].
  rewrite Hget in *. unfold trace_of in Htr. unfold state_of in Hthis.
  simpl in Htr, Hthis. subst tr1.
  destruct Hcfg as (_ & Hp & _). rewrite Hp.
  split; [reflexivity | exact Hthis].
Qed.

Lemma waitForDeployFinish_stops_at_failed_fetch_witness :
  waitForDeployFinish Stub.client 7 ["d-1"] (Stub.start flaky)
  = (Err (Upstream "ServiceUnavailable"),
     mkSt (assign_deployStatus (OpsWorksDeploy Stub.options) (Str "running"))
          (Stub.mkWorld (Stub.apps Stub.healthy) (Stub.layers Stub.healthy)
             (Stub.instances Stub.healthy) None (Stub.create Stub.healthy) []),
     running_round 10000 ["d-1"] ++ running_round 10000 ["d-1"]
     ++ [SetTimeout 10000; DescribeDeployments ["d-1"]]).
Proof.
  assert (Hrounds :
            running_rounds Stub.client ["d-1"] 2 (Stub.start flaky)
              (mkSt (assign_deployStatus (OpsWorksDeploy Stub.options)
                                         (Str "running"))
                    (Stub.mkWorld (Stub.apps Stub.healthy)
                       (Stub.layers Stub.healthy) (Stub.instances Stub.healthy)
                       None (Stub.create Stub.healthy)
                       [Failure "ServiceUnavailable"]))).
  { eapply running_rounds_S; [reflexivity |].
    eapply running_rounds_S; [reflexivity |].
    apply running_rounds_O. }
  assert (Hlt : 2 < 7) by lia.
  exact (proj1 (waitForDeployFinish_stops_at_failed_fetch
                  Stub.World Stub.client ["d-1"] 2 (Stub.start flaky)
                  _ _ _ _ 7 eq_refl Hrounds eq_refl Hlt)).
Defined.

(** ** Where a run of deploy stops *)

(** [deploy] in terms of the waterfall. *)
Lemma deploy_of_waterfall :
  forall W (opsworks : OpsWorks W) fuel appId url st,
    deploy opsworks fuel appId url st
    = match waterfall opsworks fuel appId url st with
      | (OutOfFuel, st', tr) => (OutOfFuel, st', tr)
      | (r, st', tr) => (r, st', tr ++ [ConsoleLog LogFinished])
      end.
Proof. reflexivity. Qed.

(** X8.  When the application lookup fails, because the request fails
    or because it lists no application, [deploy] makes no other request:
    its callback gets the error of the request unchanged, or the
    application-not-found error. *)
Theorem deploy_stops_when_app_is_missing :
  forall W (opsworks : OpsWorks W) fuel appId url st resp w',
    describeApps opsworks [appId] (world st) = (resp, w') ->
    (forall data app others, resp = Success data ->
                             Apps data <> Some (app :: others)) ->
    deploy opsworks fuel appId url st
    = (Err match resp with
           | Failure err => Upstream err
           | Success _ => AppNotFound appId
           end,
       mkSt (this st) w',
       [DescribeApps [appId]; ConsoleLog LogFinished]).
Proof.
  intros W opsworks fuel appId url st resp w' H Hnone.
  assert (Happ : findApp opsworks appId st
                 = (Err match resp with
                        | Failure err => Upstream err
                        | Success _ => AppNotFound appId
                        end,
                    mkSt (this st) w', [DescribeApps [appId]])).
  { unfold findApp, bind, request. rewrite H.
    destruct resp as [err | data]; [reflexivity |].
    destruct (Apps data) as [[| app others] |] eqn:E; try reflexivity.
    exfalso. apply (Hnone data app others eq_refl). exact E. }
  rewrite deploy_of_waterfall. unfold waterfall, doFindApp.
  rewrite (bind_err _ _ _ _ _ _ _ _ _ Happ). reflexivity.
Qed.

Lemma deploy_stops_when_app_is_missing_witness :
  deploy Stub.client 5 "app-1" Null (Stub.start denied)
  = (Err (Upstream "AccessDenied"), Stub.start denied,
     [DescribeApps ["app-1"]; ConsoleLog LogFinished]).
Proof.
  apply (deploy_stops_when_app_is_missing
           Stub.World Stub.client 5 "app-1" Null (Stub.start denied)
           (Failure "AccessDenied") denied eq_refl).
  intros data app others E. discriminate E.
Defined.

(** X9.  When the layer of the application is found but none of its
    instances is online, [deploy] ends with the no-running-instances
    error right after listing the instances: it changes nothing on the
    service and creates no deployment. *)
Theorem deploy_stops_without_running_instances :
  forall W (opsworks : OpsWorks W) fuel appId url st app st1 tr1
         layer st2 tr2 data w3,
    findApp opsworks appId st = (Ok app, st1, tr1) ->
    findLayerByType opsworks (StackId app) (Type_ app ++ "-app")%string st1
    = (Ok (Some layer), st2, tr2) ->
    describeInstances opsworks (LayerId layer) (world st2) = (Success data, w3) ->
    (forall i, In i (Instances data) -> InstanceStatus i <> "online") ->
    deploy opsworks fuel appId url st
    = (Err (NoRunningInstances (LayerId layer) (StackId app)),
       mkSt (this st2) w3,
       tr1 ++ tr2 ++ [DescribeInstances (LayerId layer); ConsoleLog LogFinished])
    /\ filter is_mutation (trace_of (deploy opsworks fuel appId url st)) = [].
Proof.
  intros W opsworks fuel appId url st app st1 tr1 layer st2 tr2 data w3
         Happ Hlayer Hinst Hnone.
  assert (Hfilter : filter is_online (Instances data) = []).
  { destruct (filter is_online (Instances data)) as [| i l] eqn:E;
      [reflexivity |].
    assert (Hin : In i (filter is_online (Instances data)))
      by (rewrite E; now left).
    apply filter_In in Hin. destruct Hin as [Hin Hon].
    apply String.eqb_eq in Hon. now apply Hnone in Hin. }
  assert (Hfri : findRunningInstances opsworks (StackId app)
                   (Type_ app ++ "-app")%string st1
                 = (Err (NoRunningInstances (LayerId layer) (StackId app)),
                    mkSt (this st2) w3,
                    tr2 ++ [DescribeInstances (LayerId layer)])).
  { unfold findRunningInstances.
    rewrite (bind_ok _ _ _ _ _ _ _ _ _ Hlayer).
    rewrite (bind_ok _ _ _ _ _ _ _ _ _
               (findRunningInstancesByLayerId_answered
                  W opsworks (LayerId layer) st2 data w3 Hinst)).
    rewrite Hfilter. reflexivity. }
  assert (Hdeploy : deploy opsworks fuel appId url st
                    = (Err (NoRunningInstances (LayerId layer) (StackId app)),
                       mkSt (this st2) w3,
                       tr1 ++ tr2
                       ++ [DescribeInstances (LayerId layer);
                           ConsoleLog LogFinished])).
  { rewrite deploy_of_waterfall.
    rewrite (waterfall_after_findApp W opsworks fuel appId url st app st1 tr1
               Happ).
    rewrite Hfri. rewrite <- !app_assoc. reflexivity. }
  split; [exact Hdeploy |].
  rewrite Hdeploy. unfold trace_of. cbn [snd].
  pose proof (findApp_lookups W opsworks appId st) as H1.
  rewrite Happ in H1. unfold trace_of in H1. cbn [snd] in H1.
  pose proof (findLayerByType_lookups W opsworks (StackId app)
                (Type_ app ++ "-app")%string st1) as H2.
  rewrite Hlayer in H2. unfold trace_of in H2. cbn [snd] in H2.
  rewrite !filter_app.
  rewrite (filter_excluded _ _ _ H1 lookup_not_mutation).
  rewrite (filter_excluded _ _ _ H2 lookup_not_mutation).
  reflexivity.
Qed.

Lemma deploy_stops_without_running_instances_witness :
  deploy Stub.client 5 "app-1" Null (Stub.start all_stopped)
  = (Err (NoRunningInstances "layer-1" "stack-1"), Stub.start all_stopped,
     [DescribeApps ["app-1"]; DescribeLayers "stack-1";
      DescribeInstances "layer-1"; ConsoleLog LogFinished]).
Proof.
  refine (proj1 (deploy_stops_without_running_instances
                   Stub.World Stub.client 5 "app-1" Null (Stub.start all_stopped)
                   Stub.rails _ _ (mkLayer "layer-1" "rails-app") _ _ _ _
                   eq_refl eq_refl eq_refl _)).
  intros i [<- | []]. discriminate.
Defined.

Lemma doUpdateApp_answered :
  forall W (opsworks : OpsWorks W) url app instances st,
    doUpdateApp opsworks url app instances st
    = if truthy url then
        match client_updateApp opsworks (AppId app) (to_string url) (world st) with
        | (None, w') =>
            (Ok (app, instances), mkSt (this st) w',
             [UpdateApp (AppId app) (to_string url);
              ConsoleLog (LogUpdated (AppId app) (to_string url))])
        | (Some e, w') =>
            (Err (Upstream e), mkSt (this st) w',
             [UpdateApp (AppId app) (to_string url)])
        end
      else (Ok (app, instances), st, []).
Proof.
  intros W opsworks url app instances st. unfold doUpdateApp.
  destruct (truthy url); [| reflexivity].
  unfold bind at 1. rewrite updateApp_answered.
  destruct (client_updateApp opsworks (AppId app) (to_string url) (world st))
    as [err w'].
  destruct err; reflexivity.
Qed.

Lemma createDeployment_answered :
  forall W (opsworks : OpsWorks W) stackId appId st,
    createDeployment opsworks stackId appId st
    = match client_createDeployment opsworks "deploy" stackId appId (world st) with
      | (Failure err, w') =>
          (Err (Upstream err), mkSt (this st) w',
           [ConsoleLog (LogCreated appId stackId);
            CreateDeployment "deploy" stackId appId])
      | (Success data, w') =>
          (Ok (NewDeploymentId data), mkSt (this st) w',
           [ConsoleLog (LogCreated appId stackId);
            CreateDeployment "deploy" stackId appId;
            ConsoleLog (LogStarted (NewDeploymentId data))])
      end.
Proof.
  intros W opsworks stackId appId st.
  unfold createDeployment, bind, console_log, emit, request. simpl.
  destruct (client_createDeployment opsworks "deploy" stackId appId (world st))
    as [resp w'].
  destruct resp; reflexivity.
Qed.

(** The waterfall from the third task on, once the first two have
    succeeded. *)
Lemma waterfall_after_lookups :
  forall W (opsworks : OpsWorks W) fuel appId url st app st1 tr1
         instances st2 tr2,
    findApp opsworks appId st = (Ok app, st1, tr1) ->
    findRunningInstances opsworks (StackId app) (Type_ app ++ "-app")%string st1
    = (Ok instances, st2, tr2) ->
    waterfall opsworks fuel appId url st
    = match doUpdateApp opsworks url app instances st2 with
      | (Ok _, st3, tr3) =>
          match createDeployment opsworks (StackId app) (AppId app) st3 with
          | (Ok deploymentId, st4, tr4) =>
              let '(r, st5, tr5) :=
                waitForDeployFinish opsworks fuel [deploymentId] st4 in
              (r, st5, tr1 ++ tr2 ++ tr3 ++ tr4 ++ tr5)
          | (Err e, st4, tr4) => (Err e, st4, tr1 ++ tr2 ++ tr3 ++ tr4)
          | (OutOfFuel, st4, tr4) => (OutOfFuel, st4, tr1 ++ tr2 ++ tr3 ++ tr4)
          end
      | (Err e, st3, tr3) => (Err e, st3, tr1 ++ tr2 ++ tr3)
      | (OutOfFuel, st3, tr3) => (OutOfFuel, st3, tr1 ++ tr2 ++ tr3)
      end.
Proof.
  intros W opsworks fuel appId url st app st1 tr1 instances st2 tr2 Happ Hfri.
  rewrite (waterfall_after_findApp W opsworks fuel appId url st app st1 tr1 Happ).
  rewrite Hfri.
  unfold bind at 1.
  pose proof (doUpdateApp_answered W opsworks url app instances st2) as Hupd.
  destruct (doUpdateApp opsworks url app instances st2) as [[r3 st3] tr3].
  destruct r3 as [ai | e |]; try reflexivity.
  assert (Hai : ai = (app, instances)).
  { destruct (truthy url).
    - destruct (client_updateApp opsworks (AppId app) (to_string url) (world st2))
        as [[err |] w']; now inversion Hupd.
    - now inversion Hupd. }
  subst ai. cbn [fst snd].
  unfold bind at 1. unfold doCreateDeployment, doWaitForDeployFinish.
  destruct (createDeployment opsworks (StackId app) (AppId app) st3)
    as [[r4 st4] tr4].
  destruct r4 as [deploymentId | e |]; try reflexivity.
  destruct (waitForDeployFinish opsworks fuel [deploymentId] st4)
    as [[r5 st5] tr5].
  reflexivity.
Qed.

(** X10.  When the request to create the deployment fails, [deploy]
    hands the error of the request to its callback unchanged and stops:
    it sets no timer and fetches no status, and an update of the
    application made just before stays as it is. *)
Theorem deploy_stops_when_createDeployment_fails :
  forall W (opsworks : OpsWorks W) fuel appId url st app st1 tr1
         instances st2 tr2 ai st3 tr3 err w4,
    findApp opsworks appId st = (Ok app, st1, tr1) ->
    findRunningInstances opsworks (StackId app) (Type_ app ++ "-app")%string st1
    = (Ok instances, st2, tr2) ->
    doUpdateApp opsworks url app instances st2 = (Ok ai, st3, tr3) ->
    client_createDeployment opsworks "deploy" (StackId app) (AppId app) (world st3)
    = (Failure err, w4) ->
    deploy opsworks fuel appId url st
    = (Err (Upstream err), mkSt (this st3) w4,
       tr1 ++ tr2 ++ tr3
       ++ [ConsoleLog (LogCreated (AppId app) (StackId app));
           CreateDeployment "deploy" (StackId app) (AppId app);
           ConsoleLog LogFinished])
    /\ filter is_poll (trace_of (deploy opsworks fuel appId url st)) = []
    /\ filter is_mutation (trace_of (deploy opsworks fuel appId url st))
       = (if truthy url then [UpdateApp (AppId app) (to_string url)] else [])
         ++ [CreateDeployment "deploy" (StackId app) (AppId app)].
Proof.
  intros W opsworks fuel appId url st app st1 tr1 instances st2 tr2 ai st3 tr3
         err w4 Happ Hfri Hupd Hcreate.
  assert (Hdeploy :
            deploy opsworks fuel appId url st
            = (Err (Upstream err), mkSt (this st3) w4,
               tr1 ++ tr2 ++ tr3
               ++ [ConsoleLog (LogCreated (AppId app) (StackId app));
                   CreateDeployment "deploy" (StackId app) (AppId app);
                   ConsoleLog LogFinished])).
  { rewrite deploy_of_waterfall.
    rewrite (waterfall_after_lookups W opsworks fuel appId url st app st1 tr1
               instances st2 tr2 Happ Hfri).
    rewrite Hupd. rewrite createDeployment_answered, Hcreate.
    rewrite <- !app_assoc. reflexivity. }
  split; [exact Hdeploy |].
  rewrite Hdeploy. unfold trace_of. cbn [snd].
  pose proof (findApp_lookups W opsworks appId st) as H1.
  rewrite Happ in H1. unfold trace_of in H1. cbn [snd] in H1.
  pose proof (findRunningInstances_lookups W opsworks (StackId app)
                (Type_ app ++ "-app")%string st1) as H2.
  rewrite Hfri in H2. unfold trace_of in H2. cbn [snd] in H2.
  pose proof (doUpdateApp_mutates W opsworks url app instances st2) as H3.
  rewrite Hupd in H3. unfold trace_of in H3. cbn [snd] in H3.
  rewrite !filter_app.
  split.
  - rewrite (filter_excluded not_poll is_poll tr1).
    2:{ rewrite forallb_forall in *. intros ev Hev.
        apply lookup_not_poll. now apply H1. }
    2:{ intros ev Hev. unfold not_poll in Hev. now apply negb_true_iff in Hev. }
    rewrite (filter_excluded not_poll is_poll tr2).
    2:{ rewrite forallb_forall in *. intros ev Hev.
        apply lookup_not_poll. now apply H2. }
    2:{ intros ev Hev. unfold not_poll in Hev. now apply negb_true_iff in Hev. }
    rewrite (filter_excluded not_poll is_poll tr3).
    2:{ rewrite forallb_forall in *. intros ev Hev.
        apply mutation_not_poll. now apply H3. }
    2:{ intros ev Hev. unfold not_poll in Hev. now apply negb_true_iff in Hev. }
    reflexivity.
  - rewrite (filter_excluded _ _ _ H1 lookup_not_mutation).
    rewrite (filter_excluded _ _ _ H2 lookup_not_mutation).
    rewrite doUpdateApp_answered in Hupd.
    destruct (truthy url).
    + destruct (client_updateApp opsworks (AppId app) (to_string url) (world st2))
        as [[e |] w']; inversion Hupd; subst. reflexivity.
    + inversion Hupd; subst. reflexivity.
Qed.

Lemma deploy_stops_when_createDeployment_fails_witness :
  deploy Stub.client 5 "app-1" (Str "https://s3/app-1.0.0.tar.gz")
    (Stub.start throttled)
  = (Err (Upstream "Throttling"), Stub.start throttled,
     [DescribeApps ["app-1"]; DescribeLayers "stack-1";
      DescribeInstances "layer-1";
      ConsoleLog (LogFoundInstances 1 "layer-1" "stack-1");
      UpdateApp "app-1" "https://s3/app-1.0.0.tar.gz";
      ConsoleLog (LogUpdated "app-1" "https://s3/app-1.0.0.tar.gz");
      ConsoleLog (LogCreated "app-1" "stack-1");
      CreateDeployment "deploy" "stack-1" "app-1";
      ConsoleLog LogFinished]).
Proof.
  exact (proj1 (deploy_stops_when_createDeployment_fails
                  Stub.World Stub.client 5 "app-1"
                  (Str "https://s3/app-1.0.0.tar.gz") (Stub.start throttled)
                  Stub.rails (Stub.start throttled) _
                  _ (Stub.start throttled) _
                  _ (Stub.start throttled) _
                  "Throttling" throttled
                  eq_refl eq_refl eq_refl eq_refl)).
Defined.

(** ** What a successful run means *)

(** Polling hands a status to its callback only when the last fetch
    yielded successful. *)
Lemma waitForDeployFinish_ok :
  forall W (opsworks : OpsWorks W) fuel ids st v st' tr,
    short_circuits (this st) = false ->
    waitForDeployFinish opsworks fuel ids st = (Ok v, st', tr) ->
    v = Str "successful"
    /\ deployStatus (this st') = Str "successful"
    /\ exists tr',
         tr = tr' ++ [SetTimeout (pollingTime (this st));
                      DescribeDeployments ids; ConsoleLog LogSuccessful].
Proof.
  intros W opsworks fuel ids.
  induction fuel as [| fuel IH]; intros st v st' tr Hsc H.
  - discriminate H.
  - rewrite waitForDeployFinish_unfold in H by exact Hsc.
    destruct (getDeploymentStatus_trace W opsworks ids st) as [Htr Hthis].
    destruct (getDeploymentStatus opsworks ids st) as [[r st1] tr1].
    unfold trace_of, state_of in Htr, Hthis. simpl in Htr, Hthis. subst tr1.
    destruct r as [status | e |]; try discriminate H.
    rewrite waitForDeployFinish_callback_cases in H.
    destruct status as [| | s]; try discriminate H.
    destruct (String.eqb s "running").
    + set (st2 := mkSt (assign_deployStatus (this st1) (Str s)) (world st1)) in *.
      assert (Hsc2 : short_circuits (this st2) = false).
      { subst st2. unfold short_circuits in *. simpl. rewrite Hthis. exact Hsc. }
      destruct (waitForDeployFinish opsworks fuel ids st2)
        as [[r2 st3] tr3] eqn:Hrec.
      inversion H; subst r2 st3 tr.
      destruct (IH st2 v st' tr3 Hsc2 Hrec) as (Hv & Hstatus & tr' & Htr').
      split; [exact Hv |]. split; [exact Hstatus |].
      exists (SetTimeout (pollingTime (this st)) :: DescribeDeployments ids
              :: ConsoleLog (LogRunning (pollingTime (this st1))) :: tr').
      rewrite Htr'. subst st2. simpl. rewrite Hthis. reflexivity.
    + destruct (String.eqb s "failed"); [discriminate H |].
      destruct (String.eqb s "successful") eqn:E; [| discriminate H].
      apply String.eqb_eq in E. subst s.
      inversion H; subst. split; [reflexivity |]. split; [reflexivity |].
      exists []. reflexivity.
Qed.


(** X11.  The callback of [deploy] gets a status with no error only
    when the last status fetch yielded successful: the status is then
    successful, it is what [deployStatus] holds, and the run has
    requested one deployment, for the application that was looked up,
    after at most one update of that application with the given url. *)
Theorem deploy_ok_means_successful :
  forall W (opsworks : OpsWorks W) fuel appId url st v st' tr,
    short_circuits (this st) = false ->
    deploy opsworks fuel appId url st = (Ok v, st', tr) ->
    v = Str "successful"
    /\ deployStatus (this st') = Str "successful"
    /\ exists app w1,
         findApp opsworks appId st
         = (Ok app, mkSt (this st) w1, [DescribeApps [appId]])
         /\ filter is_mutation tr
            = (if truthy url then [UpdateApp (AppId app) (to_string url)] else [])
              ++ [CreateDeployment "deploy" (StackId app) (AppId app)].
Proof.
  intros W opsworks fuel appId url st v st' tr Hsc H.
  rewrite deploy_of_waterfall in H.
  destruct (waterfall opsworks fuel appId url st) as [[r stw] trw] eqn:Hwf.
  destruct r as [v' | e |]; try discriminate H.
  inversion H; subst v' stw tr. clear H.
  destruct (findApp opsworks appId st) as [[r1 st1] tr1] eqn:Happ.
  destruct r1 as [app | e |].
  2:{ unfold waterfall, doFindApp in Hwf.
      rewrite (bind_err _ _ _ _ _ _ _ _ _ Happ) in Hwf. discriminate Hwf. }
  2:{ unfold waterfall, doFindApp, bind in Hwf. rewrite Happ in Hwf.
      discriminate Hwf. }
  destruct (findRunningInstances opsworks (StackId app)
              (Type_ app ++ "-app")%string st1) as [[r2 st2] tr2] eqn:Hfri.
  destruct r2 as [instances | e |].
  2:{ rewrite (waterfall_after_findApp W opsworks fuel appId url st app st1 tr1
                 Happ), Hfri in Hwf. discriminate Hwf. }
  2:{ rewrite (waterfall_after_findApp W opsworks fuel appId url st app st1 tr1
                 Happ), Hfri in Hwf. discriminate Hwf. }
  rewrite (waterfall_after_lookups W opsworks fuel appId url st app st1 tr1
             instances st2 tr2 Happ Hfri) in Hwf.
  pose proof (doUpdateApp_answered W opsworks url app instances st2) as Hupd.
  pose proof (doUpdateApp_keeps W opsworks url app instances st2) as K3.
  destruct (doUpdateApp opsworks url app instances st2) as [[r3 st3] tr3].
  destruct r3 as [ai | e |]; try discriminate Hwf.
  rewrite createDeployment_answered in Hwf.
  destruct (client_createDeployment opsworks "deploy" (StackId app) (AppId app)
              (world st3)) as [[err | data] w4]; try discriminate Hwf.
  destruct (waitForDeployFinish opsworks fuel [NewDeploymentId data]
              (mkSt (this st3) w4)) as [[r5 st5] tr5] eqn:Hwait.
  inversion Hwf; subst r5 st5 trw. clear Hwf.
  pose proof (findApp_keeps W opsworks appId st) as K1.
  rewrite Happ in K1. unfold state_of in K1. cbn [fst snd] in K1.
  pose proof (findRunningInstances_keeps W opsworks (StackId app)
                (Type_ app ++ "-app")%string st1) as K2.
  rewrite Hfri in K2. unfold state_of in K2. cbn [fst snd] in K2.
  unfold state_of in K3. cbn [fst snd] in K3.
  assert (Hsc4 : short_circuits (this (mkSt (this st3) w4)) = false).
  { cbn [this].
    rewrite (short_circuits_same_config _ _ K3).
    rewrite (short_circuits_same_config _ _ K2).
    rewrite (short_circuits_same_config _ _ K1). exact Hsc. }
  destruct (waitForDeployFinish_ok W opsworks fuel [NewDeploymentId data]
              _ v st' tr5 Hsc4 Hwait) as (Hv & Hstatus & _).
  split; [exact Hv |]. split; [exact Hstatus |].
  assert (Happ' : exists w1, st1 = mkSt (this st) w1
                             /\ tr1 = [DescribeApps [appId]]).
  { unfold findApp, bind, request in Happ.
    destruct (describeApps opsworks [appId] (world st)) as [resp w1].
    destruct resp as [err | adata]; [discriminate Happ |].
    destruct (Apps adata) as [[| a others] |]; try discriminate Happ.
    inversion Happ; subst. now exists w1. }
  destruct Happ' as [w1 [-> ->]].
  exists app, w1. split; [reflexivity |].
  pose proof (findRunningInstances_lookups W opsworks (StackId app)
                (Type_ app ++ "-app")%string (mkSt (this st) w1)) as H2.
  rewrite Hfri in H2. unfold trace_of in H2. cbn [snd] in H2.
  pose proof (waitForDeployFinish_polls W opsworks fuel [NewDeploymentId data]
                (mkSt (this st3) w4)) as H5.
  rewrite Hwait in H5. unfold trace_of in H5. cbn [snd] in H5.
  rewrite !filter_app.
  rewrite (filter_excluded _ _ _ H2 lookup_not_mutation).
  cbn [List.app filter is_mutation].
  rewrite (filter_excluded _ _ _ H5 poll_not_mutation).
  destruct (truthy url).
  - destruct (client_updateApp opsworks (AppId app) (to_string url) (world st2))
      as [[e |] w']; inversion Hupd; subst. reflexivity.
  - inversion Hupd; subst. reflexivity.
Qed.

Lemma deploy_ok_means_successful_witness :
  result_of (deploy Stub.client 5 "app-1" Null (Stub.start Stub.healthy))
  = Ok (Str "successful")
  /\ deployStatus (this (state_of (deploy Stub.client 5 "app-1" Null
                                     (Stub.start Stub.healthy))))
     = Str "successful"
  /\ filter is_mutation
       (trace_of (deploy Stub.client 5 "app-1" Null (Stub.start Stub.healthy)))
     = [CreateDeployment "deploy" "stack-1" "app-1"].
Proof.
  split; [reflexivity |].
  destruct (deploy_ok_means_successful
              Stub.World Stub.client 5 "app-1" Null (Stub.start Stub.healthy)
              _ _ _ eq_refl eq_refl) as (_ & Hs & app & w1 & Happ & Hm).
  split; [exact Hs |].
  inversion Happ; subst app. exact Hm.
Defined.

(** ** The order of the requests *)

Lemma prefix_of_refl : forall (A : Type) (xs : list A), prefix_of xs xs.
Proof. intros A xs. exists []. now rewrite app_nil_r. Qed.

Lemma prefix_of_app_r :
  forall (A : Type) (xs ys zs : list A),
    prefix_of xs ys -> prefix_of xs (ys ++ zs).
Proof.
  intros A xs ys zs [rest ->]. exists (rest ++ zs). now rewrite app_assoc.
Qed.

Lemma prefix_of_app_l :
  forall (A : Type) (p xs ys : list A),
    prefix_of xs ys -> prefix_of (p ++ xs) (p ++ ys).
Proof.
  intros A p xs ys [rest ->]. exists rest. now rewrite app_assoc.
Qed.

Lemma requests_app :
  forall tr1 tr2, requests (tr1 ++ tr2) = requests tr1 ++ requests tr2.
Proof. intros. apply filter_app. Qed.

Lemma requests_of_polls :
  forall tr,
    forallb is_poll_or_console tr = true -> requests tr = filter is_poll tr.
Proof.
  unfold requests.
  induction tr as [| ev tr IH]; intros H; simpl in *; [reflexivity |].
  apply andb_true_iff in H. destruct H as [Hev Htr].
  rewrite (IH Htr).
  destruct ev; try discriminate Hev; reflexivity.
Qed.

Lemma findApp_trace :
  forall W (opsworks : OpsWorks W) appId st,
    trace_of (findApp opsworks appId st) = [DescribeApps [appId]].
Proof.
  intros W opsworks appId st. unfold findApp, bind, request, trace_of.
  destruct (describeApps opsworks [appId] (world st)) as [[err | data] w'];
    [reflexivity |].
  destruct (Apps data) as [[| app others] |]; reflexivity.
Qed.

Lemma findLayerByType_trace :
  forall W (opsworks : OpsWorks W) stackId layerType st,
    trace_of (findLayerByType opsworks stackId layerType st)
    = [DescribeLayers stackId].
Proof.
  intros W opsworks stackId layerType st.
  unfold findLayerByType, bind, request, trace_of.
  destruct (describeLayers opsworks stackId (world st)) as [[err | data] w'];
    [reflexivity |].
  destruct (Layers data) as [[| l layers] |]; reflexivity.
Qed.

(** The requests of [findRunningInstances]: the layers, then the
    instances of one layer unless the layer lookup came up empty. *)
Lemma findRunningInstances_requests :
  forall W (opsworks : OpsWorks W) stackId layerType st,
    exists layerId,
      requests (trace_of (findRunningInstances opsworks stackId layerType st))
      = [DescribeLayers stackId; DescribeInstances layerId]
      \/ (requests (trace_of (findRunningInstances opsworks stackId layerType st))
          = [DescribeLayers stackId]
          /\ forall instances,
               result_of (findRunningInstances opsworks stackId layerType st)
               <> Ok instances).
Proof.
  intros W opsworks stackId layerType st.
  destruct (findRunningInstances opsworks stackId layerType st)
    as [[r st'] tr] eqn:E.
  unfold result_of, trace_of. cbn [fst snd].
  unfold findRunningInstances in E. unfold bind at 1 in E.
  pose proof (findLayerByType_trace W opsworks stackId layerType st) as Hl.
  destruct (findLayerByType opsworks stackId layerType st) as [[r1 st1] tr1].
  unfold trace_of in Hl. cbn [snd] in Hl. subst tr1.
  destruct r1 as [[layer |] | e |];
    try (inversion E; subst; exists EmptyString; right;
         split; [reflexivity | discriminate]).
  exists (LayerId layer). left.
  unfold bind at 1 in E.
  pose proof (findRunningInstancesByLayerId_first_event
                W opsworks (LayerId layer) st1) as Hi.
  destruct (findRunningInstancesByLayerId opsworks (LayerId layer) st1)
    as [[r2 st2] tr2].
  unfold trace_of in Hi. cbn [snd] in Hi. subst tr2.
  destruct r2 as [instances | e |]; try (inversion E; subst; reflexivity).
  destruct (Nat.eqb (length instances) 0); inversion E; subst; reflexivity.
Qed.

(** The requests of polling: whole rounds, or a lone timer when the
    test on [this.state] fires. *)
Lemma waitForDeployFinish_requests :
  forall W (opsworks : OpsWorks W) fuel ids st,
    exists k,
      prefix_of (requests (trace_of (waitForDeployFinish opsworks fuel ids st)))
                (concat (repeat (poll_round (pollingTime (this st)) ids) k)).
Proof.
  intros W opsworks fuel ids st.
  rewrite requests_of_polls by apply waitForDeployFinish_polls.
  destruct (short_circuits (this st)) eqn:Hsc.
  - destruct fuel as [| fuel].
    + exists 0. apply prefix_of_refl.
    + exists 1. unfold short_circuits in Hsc. cbn [waitForDeployFinish].
      unfold bind at 1. unfold get_this at 1. cbn iota beta.
      unfold bind at 1. unfold emit at 1. cbn iota beta.
      unfold bind at 1. unfold get_this at 1. cbn iota beta.
      rewrite Hsc. unfold ret, trace_of. simpl.
      now exists [DescribeDeployments ids].
  - destruct (waitForDeployFinish_rounds W opsworks fuel ids st Hsc)
      as [k [Hk _]].
    exists k. rewrite Hk. apply prefix_of_refl.
Qed.

(** X12.  In every run of [deploy], whatever the service answers, the
    requests and timers are an initial part of one fixed sequence: the
    application lookup, the layers of one stack, the instances of one
    layer, the update of the application if and only if a url was given,
    one request to create a deployment in that stack for that
    application, then rounds of a timer and a status fetch for one
    deployment. *)
Theorem deploy_requests_in_order :
  forall W (opsworks : OpsWorks W) fuel appId url st,
    exists stackId layerId app deploymentId k,
      prefix_of
        (requests (trace_of (deploy opsworks fuel appId url st)))
        ([DescribeApps [appId]; DescribeLayers stackId;
          DescribeInstances layerId]
         ++ (if truthy url then [UpdateApp app (to_string url)] else [])
         ++ [CreateDeployment "deploy" stackId app]
         ++ concat (repeat (poll_round (pollingTime (this st)) [deploymentId])
                           k)).
Proof.
  intros W opsworks fuel appId url st.
  destruct (deploy_trace W opsworks fuel appId url st)
    as (_ & _ & closing & -> & Hclosing).
  assert (Hc : requests closing = [])
    by (destruct Hclosing as [[-> _] | [-> _]]; reflexivity).
  rewrite requests_app, Hc, app_nil_r. clear closing Hclosing Hc.
  pose proof (findApp_trace W opsworks appId st) as H1.
  pose proof (findApp_keeps W opsworks appId st) as K1.
  destruct (findApp opsworks appId st) as [[r1 st1] tr1] eqn:Happ.
  unfold trace_of in H1. unfold state_of in K1. cbn [fst snd] in H1, K1.
  subst tr1.
  destruct r1 as [app | e |].
  2:{ exists EmptyString, EmptyString, EmptyString, EmptyString, 0.
      unfold waterfall, doFindApp.
      rewrite (bind_err _ _ _ _ _ _ _ _ _ Happ). unfold trace_of. cbn [snd].
      now eexists. }
  2:{ exists EmptyString, EmptyString, EmptyString, EmptyString, 0.
      unfold waterfall, doFindApp, bind. rewrite Happ.
      unfold trace_of. cbn [snd]. now eexists. }
  destruct (findRunningInstances_requests W opsworks (StackId app)
              (Type_ app ++ "-app")%string st1) as [layerId H2].
  pose proof (findRunningInstances_keeps W opsworks (StackId app)
                (Type_ app ++ "-app")%string st1) as K2.
  destruct (findRunningInstances opsworks (StackId app)
              (Type_ app ++ "-app")%string st1) as [[r2 st2] tr2] eqn:Hfri.
  unfold trace_of, result_of in H2. unfold state_of in K2.
  cbn [fst snd] in H2, K2.
  exists (StackId app), layerId, (AppId app).
  destruct r2 as [instances | e |].
  2:{ exists EmptyString, 0.
      rewrite (waterfall_after_findApp W opsworks fuel appId url st app st1 _
                 Happ), Hfri.
      unfold trace_of. cbn [snd]. rewrite requests_app.
      change (requests [DescribeApps [appId]]) with [DescribeApps [appId]].
      apply (prefix_of_app_l _ [DescribeApps [appId]]).
      destruct H2 as [-> | [-> _]]; eexists; cbn [List.app]; reflexivity. }
  2:{ exists EmptyString, 0.
      rewrite (waterfall_after_findApp W opsworks fuel appId url st app st1 _
                 Happ), Hfri.
      unfold trace_of. cbn [snd]. rewrite requests_app.
      change (requests [DescribeApps [appId]]) with [DescribeApps [appId]].
      apply (prefix_of_app_l _ [DescribeApps [appId]]).
      destruct H2 as [-> | [-> _]]; eexists; cbn [List.app]; reflexivity. }
  destruct H2 as [H2 | [_ H2]]; [| exfalso; now apply (H2 instances)].
  rewrite (waterfall_after_lookups W opsworks fuel appId url st app st1 _
             instances st2 tr2 Happ Hfri).
  pose proof (doUpdateApp_answered W opsworks url app instances st2) as Hupd.
  pose proof (doUpdateApp_keeps W opsworks url app instances st2) as K3.
  destruct (doUpdateApp opsworks url app instances st2) as [[r3 st3] tr3].
  unfold state_of in K3. cbn [fst snd] in K3.
  assert (H3 : requests tr3
               = if truthy url then [UpdateApp (AppId app) (to_string url)]
                 else []).
  { destruct (truthy url).
    - destruct (client_updateApp opsworks (AppId app) (to_string url) (world st2))
        as [[e |] w']; inversion Hupd; reflexivity.
    - inversion Hupd; reflexivity. }
  clear Hupd.
  set (head := [DescribeApps [appId]; DescribeLayers (StackId app);
                DescribeInstances layerId]).
  set (upd := if truthy url then [UpdateApp (AppId app) (to_string url)]
              else []) in *.
  assert (Hhead : forall rest,
            requests ([DescribeApps [appId]] ++ tr2 ++ tr3 ++ rest)
            = head ++ upd ++ requests rest).
  { intros rest. rewrite !requests_app, H2, H3. reflexivity. }
  destruct r3 as [ai | e |].
  2:{ exists EmptyString, 0. unfold trace_of. cbn [snd].
      rewrite <- (app_nil_r tr3), Hhead. cbn [requests filter].
      apply prefix_of_app_l, prefix_of_app_l. now eexists. }
  2:{ exists EmptyString, 0. unfold trace_of. cbn [snd].
      rewrite <- (app_nil_r tr3), Hhead. cbn [requests filter].
      apply prefix_of_app_l, prefix_of_app_l. now eexists. }
  rewrite createDeployment_answered.
  destruct (client_createDeployment opsworks "deploy" (StackId app) (AppId app)
              (world st3)) as [[err | data] w4].
  { exists EmptyString, 0. unfold trace_of. cbn [snd].
    rewrite Hhead. cbn [requests filter is_console negb].
    apply prefix_of_app_l, prefix_of_app_l. cbn [repeat concat].
    apply prefix_of_refl. }
  exists (NewDeploymentId data).
  destruct (waitForDeployFinish_requests W opsworks fuel [NewDeploymentId data]
              (mkSt (this st3) w4)) as [k Hk].
  exists k.
  destruct (waitForDeployFinish opsworks fuel [NewDeploymentId data]
              (mkSt (this st3) w4)) as [[r5 st5] tr5].
  unfold trace_of in *. cbn [snd this] in *.
  rewrite Hhead.
  replace (pollingTime (this st)) with (pollingTime (this st3)).
  2:{ destruct K1 as (_ & P1 & _), K2 as (_ & P2 & _), K3 as (_ & P3 & _).
      congruence. }
  apply prefix_of_app_l, prefix_of_app_l.
  rewrite requests_app.
  change (requests [ConsoleLog (LogCreated (AppId app) (StackId app));
                    CreateDeployment "deploy" (StackId app) (AppId app);
                    ConsoleLog (LogStarted (NewDeploymentId data))])
    with [CreateDeployment "deploy" (StackId app) (AppId app)].
  apply prefix_of_app_l. exact Hk.
Qed.

(** ** The placeholder for the version *)












(** ** The script as a whole *)





